(** * Multimodal video transcriber: data model, request builder, retrying
    invoker and response interpreter

  A shallow embedding of [models.py], [config.py] and [transcriber.py],
  and of the rows that [visualizer.py] and the analytics tab of [app.py]
  build from the data model.

  Conventions.
  - Python [int] is [Z]; [len] is [Z.of_nat (length _)].
  - Python [float] is IEEE-754 binary64, i.e. Rocq's primitive [float].
  - Python [str] is [string], holding the UTF-8 encoding of the text.
    Every prefix and substring test of the source is against an ASCII
    literal, so byte-wise and code-point-wise matching coincide;
    [str.strip] recognises the encodings of all Unicode white space.
  - [Optional[T]] is [option T]; Python truthiness is written out where
    the source relies on it ([_truthy] functions).
  - [datetime.timedelta] is its total number of microseconds;
    [total_seconds] is the double nearest to their quotient by 10**6.
  - Printing and the remote call are effects: they are recorded in a
    trace carried by the monad [M]. *)

From Stdlib Require Import ZArith Floats Ascii.
From stdpp Require Import base option list strings gmap pretty.

Local Open Scope string_scope.
Local Open Scope list_scope.
Local Open Scope Z_scope.

(* ===================================================================== *)
(** ** config.py *)
(* ===================================================================== *)

Module Config.

Definition DEFAULT_MODEL : string := "gemini-2.0-flash".
Definition DEFAULT_TEMPERATURE : float := 0.0%float.
Definition DEFAULT_TOP_P : float := 0.0%float.
Definition DEFAULT_SEED : Z := 42.

Definition DEFAULT_FPS : float := 1.0%float.
Definition MAX_FPS : float := 24.0%float.
#[warnings="-inexact-float"] Definition MIN_FPS : float := 0.1%float.

Definition DEFAULT_TIMECODE_FORMAT : string := "MM:SS".
Definition EXTENDED_TIMECODE_FORMAT : string := "H:MM:SS".

Definition NOT_FOUND_MARKER : string := "?".

End Config.

(* ===================================================================== *)
(** ** models.py *)
(* ===================================================================== *)

Module TranscriptSegment.
Record t := mk {
  start_time : string;
  end_time : string;
  text : string;
  voice_id : Z;
  emotion : option string;
  tone : option string;
  energy_level : option string;
  speech_rate : option string;
}.
End TranscriptSegment.

Module Speaker.
Record t := mk {
  voice_id : Z;
  name : string;
  company : string;
  position : string;
  role_in_video : string;
}.
End Speaker.

Module TranslationTable.
Record t := mk {
  line_number : Z;
  speaker : string;
  source_iso : string;
  target_iso : string;
}.
End TranslationTable.

Module VideoTranscription.

Record t := mk {
  script_segments : list TranscriptSegment.t;
  speakers : list Speaker.t;
  translation_table : list TranslationTable.t;
  video_duration : option string;
  total_segments : Z;
  total_speakers : Z;
  language_detected : option string;
}.

(** [VideoTranscription()]: every field takes its declared default. *)
Definition default : t :=
  {| script_segments := [];
     speakers := [];
     translation_table := [];
     video_duration := None;
     total_segments := 0;
     total_speakers := 0;
     language_detected := None |}.

(** [update_counts] assigns the two count fields in place; the embedding
    returns the updated aggregate. *)
Definition update_counts (self : t) : t :=
  {| script_segments := script_segments self;
     speakers := speakers self;
     translation_table := translation_table self;
     video_duration := video_duration self;
     total_segments := Z.of_nat (length (script_segments self));
     total_speakers := Z.of_nat (length (speakers self));
     language_detected := language_detected self |}.

(** [for speaker in self.speakers: if speaker.voice_id == voice_id: return speaker] *)
Fixpoint get_speaker_by_voice_id_loop (speakers : list Speaker.t) (voice_id : Z)
  : option Speaker.t :=
  match speakers with
  | [] => None
  | speaker :: rest =>
      if decide (Speaker.voice_id speaker = voice_id) then Some speaker
      else get_speaker_by_voice_id_loop rest voice_id
  end.

Definition get_speaker_by_voice_id (self : t) (voice_id : Z) : option Speaker.t :=
  get_speaker_by_voice_id_loop (speakers self) voice_id.

(** The first loop of [get_segments_by_speaker]: [speaker] starts as
    [None] and the loop breaks at the first name match. *)
Fixpoint find_speaker_loop (speakers : list Speaker.t) (speaker_name : string)
  : option Speaker.t :=
  match speakers with
  | [] => None
  | s :: rest =>
      if decide (Speaker.name s = speaker_name) then Some s
      else find_speaker_loop rest speaker_name
  end.

(** The second loop: [segments.append(segment)] for each segment with the
    speaker's [voice_id], in iteration order of [script_segments]. *)
Fixpoint collect_segments_loop (voice_id : Z) (script : list TranscriptSegment.t)
    (segments : list TranscriptSegment.t) : list TranscriptSegment.t :=
  match script with
  | [] => segments
  | segment :: rest =>
      if decide (TranscriptSegment.voice_id segment = voice_id)
      then collect_segments_loop voice_id rest (segments ++ [segment])
      else collect_segments_loop voice_id rest segments
  end.

(** A [Speaker] instance is always truthy (a pydantic model defines
    neither [__bool__] nor [__len__]), so [if speaker:] tests for
    [None]. *)
Definition get_segments_by_speaker (self : t) (speaker_name : string)
  : list TranscriptSegment.t :=
  match find_speaker_loop (speakers self) speaker_name with
  | Some speaker =>
      collect_segments_loop (Speaker.voice_id speaker) (script_segments self) []
  | None => []
  end.

End VideoTranscription.

(* ===================================================================== *)
(** ** External JSON form

  [main.py] and [app.py] export an aggregate with
  [json.dump(transcription.model_dump(), ...)].  [model_dump] turns each
  model into a dict keyed by the declared field names, in declaration
  order, nested models and lists included; [None] becomes JSON [null].
  Reading the document back is pydantic validation against the same
  class declarations: a key that is missing takes the field's default
  when it has one and is an error otherwise, and a value must have the
  declared type, up to the one coercion of pydantic's default mode that
  applies to these values: a string that reads as a whole number is
  accepted for an [int] field.  The textual layer ([json.dump] / [json.load]) is the
  Python standard library's and is not part of this development: the
  external form is the JSON value tree. *)
(* ===================================================================== *)

#[warnings="-register-all"] Inductive json :=
| JNull
| JInt (n : Z)
| JStr (s : string)
| JList (items : list json)
| JDict (items : list (string * json)).

Module Json.

(** [d.get(key)] on a dict whose keys are distinct. *)
Fixpoint get (items : list (string * json)) (key : string) : option json :=
  match items with
  | [] => None
  | (k, v) :: rest => if decide (k = key) then Some v else get rest key
  end.

Definition as_dict (j : json) : option (list (string * json)) :=
  match j with JDict items => Some items | _ => None end.
Definition as_list (j : json) : option (list json) :=
  match j with JList items => Some items | _ => None end.
Definition as_str (j : json) : option string :=
  match j with JStr s => Some s | _ => None end.
(** [int], in pydantic's lax mode: a number is taken as it is, and a string
  is accepted when it reads as a whole number.  [lax_int] is that reading
  of a string; which spellings it accepts (signs, underscores, white space
  around the digits) depends on the version of pydantic. *)
Definition as_int (lax_int : string -> option Z) (j : json) : option Z :=
  match j with JInt n => Some n | JStr s => lax_int s | _ => None end.
(** [Optional[str]] *)
Definition as_optional_str (j : json) : option (option string) :=
  match j with JNull => Some None | JStr s => Some (Some s) | _ => None end.

(** A field declared without a default. *)
Definition required {A} (items : list (string * json)) (key : string)
    (as_type : json -> option A) : option A :=
  get items key ≫= as_type.

(** A field declared with [default=...] or [default_factory=...]. *)
Definition with_default {A} (items : list (string * json)) (key : string)
    (as_type : json -> option A) (default : A) : option A :=
  match get items key with
  | None => Some default
  | Some j => as_type j
  end.

Definition of_optional_str (o : option string) : json :=
  match o with None => JNull | Some s => JStr s end.

End Json.

Module TranscriptSegmentJson.
Import TranscriptSegment.

Definition model_dump (self : t) : json :=
  JDict [ ("start_time", JStr (start_time self));
          ("end_time", JStr (end_time self));
          ("text", JStr (text self));
          ("voice_id", JInt (voice_id self));
          ("emotion", Json.of_optional_str (emotion self));
          ("tone", Json.of_optional_str (tone self));
          ("energy_level", Json.of_optional_str (energy_level self));
          ("speech_rate", Json.of_optional_str (speech_rate self)) ].

Definition model_validate (lax_int : string -> option Z) (j : json) : option t :=
  d ← Json.as_dict j;
  start_time ← Json.required d "start_time" Json.as_str;
  end_time ← Json.required d "end_time" Json.as_str;
  text ← Json.required d "text" Json.as_str;
  voice_id ← Json.required d "voice_id" (Json.as_int lax_int);
  emotion ← Json.with_default d "emotion" Json.as_optional_str None;
  tone ← Json.with_default d "tone" Json.as_optional_str None;
  energy_level ← Json.with_default d "energy_level" Json.as_optional_str None;
  speech_rate ← Json.with_default d "speech_rate" Json.as_optional_str None;
  Some (mk start_time end_time text voice_id emotion tone energy_level speech_rate).
End TranscriptSegmentJson.

Module SpeakerJson.
Import Speaker.

Definition model_dump (self : t) : json :=
  JDict [ ("voice_id", JInt (voice_id self));
          ("name", JStr (name self));
          ("company", JStr (company self));
          ("position", JStr (position self));
          ("role_in_video", JStr (role_in_video self)) ].

Definition model_validate (lax_int : string -> option Z) (j : json) : option t :=
  d ← Json.as_dict j;
  voice_id ← Json.required d "voice_id" (Json.as_int lax_int);
  name ← Json.required d "name" Json.as_str;
  company ← Json.required d "company" Json.as_str;
  position ← Json.required d "position" Json.as_str;
  role_in_video ← Json.required d "role_in_video" Json.as_str;
  Some (mk voice_id name company position role_in_video).
End SpeakerJson.

Module TranslationTableJson.
Import TranslationTable.

Definition model_dump (self : t) : json :=
  JDict [ ("line_number", JInt (line_number self));
          ("speaker", JStr (speaker self));
          ("source_iso", JStr (source_iso self));
          ("target_iso", JStr (target_iso self)) ].

Definition model_validate (lax_int : string -> option Z) (j : json) : option t :=
  d ← Json.as_dict j;
  line_number ← Json.required d "line_number" (Json.as_int lax_int);
  speaker ← Json.required d "speaker" Json.as_str;
  source_iso ← Json.required d "source_iso" Json.as_str;
  target_iso ← Json.required d "target_iso" Json.as_str;
  Some (mk line_number speaker source_iso target_iso).
End TranslationTableJson.

Module VideoTranscriptionJson.
Import VideoTranscription.

Definition model_dump (self : t) : json :=
  JDict [ ("script_segments",
            JList (TranscriptSegmentJson.model_dump <$> script_segments self));
          ("speakers", JList (SpeakerJson.model_dump <$> speakers self));
          ("translation_table",
            JList (TranslationTableJson.model_dump <$> translation_table self));
          ("video_duration", Json.of_optional_str (video_duration self));
          ("total_segments", JInt (total_segments self));
          ("total_speakers", JInt (total_speakers self));
          ("language_detected", Json.of_optional_str (language_detected self)) ].

(** [List[X]]: a JSON list each of whose items validates as [X]. *)
Definition as_list_of {A} (item : json -> option A) (j : json) : option (list A) :=
  Json.as_list j ≫= mapM item.

Definition model_validate (lax_int : string -> option Z) (j : json) : option t :=
  d ← Json.as_dict j;
  script_segments ← Json.with_default d "script_segments"
                      (as_list_of (TranscriptSegmentJson.model_validate lax_int)) [];
  speakers ← Json.with_default d "speakers"
               (as_list_of (SpeakerJson.model_validate lax_int)) [];
  translation_table ← Json.with_default d "translation_table"
                        (as_list_of (TranslationTableJson.model_validate lax_int)) [];
  video_duration ← Json.with_default d "video_duration" Json.as_optional_str None;
  total_segments ← Json.with_default d "total_segments" (Json.as_int lax_int) 0;
  total_speakers ← Json.with_default d "total_speakers" (Json.as_int lax_int) 0;
  language_detected ← Json.with_default d "language_detected" Json.as_optional_str None;
  Some (mk script_segments speakers translation_table video_duration
           total_segments total_speakers language_detected).
End VideoTranscriptionJson.

(* ===================================================================== *)
(** ** Python values used by transcriber.py *)
(* ===================================================================== *)

(** Exceptions that can travel through [transcribe_video].  [ClientError]
  and [ServerError] are the two subclasses of [google.genai.errors.APIError],
  which carries [code : int] and [message : Optional[str]];
  [RetryError] is tenacity's wrapper around the last attempt. *)
#[warnings="-register-all"] Inductive exn :=
| ValueError (msg : string)
| OverflowError
| ClientError (code : Z) (message : option string)
| ServerError (code : Z) (message : option string)
| OtherError (class_name : string)
| RetryError (last_attempt : option exn).

(** [datetime.timedelta], as its exact number of microseconds. *)
Module timedelta.

Record t := mk { microseconds : Z }.

Definition of_hours (hours : Z) : t := mk (hours * 3600 * 1000000).
Definition of_minutes (minutes : Z) : t := mk (minutes * 60 * 1000000).
Definition of_seconds (seconds : Z) : t := mk (seconds * 1000000).

(** [timedelta.min] and [timedelta.max]. *)
Definition min_us : Z := - (999999999 * 86400 * 1000000).
Definition max_us : Z := (999999999 * 86400 + 86399) * 1000000 + 999999.

(** [bool(d)]: a timedelta is falsy exactly when it is zero. *)
Definition truthy (d : t) : bool := negb (microseconds d =? 0).

(** [a >= b] *)
Definition ge (a b : t) : bool := microseconds b <=? microseconds a.

(** [a - b]; a result outside the representable range raises. *)
Definition sub (a b : t) : exn + t :=
  let us := microseconds a - microseconds b in
  if (min_us <=? us) && (us <=? max_us) then inr (mk us) else inl OverflowError.

(** [d.total_seconds()].  CPython computes [us / 10**6] on integers: the
  double nearest to the exact quotient, ties to even.  The microseconds
  enter the division exactly, as a mantissa with exponent 0. *)
Definition total_seconds (d : t) : float :=
  let us :=
    match microseconds d with
    | Z0 => S754_zero false
    | Zpos p => S754_finite false p 0
    | Zneg p => S754_finite true p 0
    end in
  SF2Prim (SFdiv prec emax us (S754_finite false 1000000 0)).

End timedelta.

Module str.

(** [s.startswith(prefix)] *)
Definition startswith (s prefix : string) : bool := String.prefix prefix s.

Fixpoint drop (n : nat) (s : string) : string :=
  match n, s with
  | S n', String _ rest => drop n' rest
  | _, _ => s
  end.

(** [s.removeprefix(prefix)] *)
Definition removeprefix (s prefix : string) : string :=
  if startswith s prefix then drop (String.length prefix) s else s.

(** [needle in haystack] *)
Fixpoint contains (needle haystack : string) : bool :=
  String.prefix needle haystack ||
  match haystack with
  | EmptyString => false
  | String _ rest => contains needle rest
  end.

(** [bool(s)] *)
Definition truthy (s : string) : bool :=
  match s with EmptyString => false | _ => true end.

(** A [string] holds the UTF-8 encoding of a Python [str], one [ascii] per
  byte.  [str.isspace] is true of the code points U+0009..U+000D,
  U+001C..U+0020, U+0085, U+00A0, U+1680, U+2000..U+200A, U+2028, U+2029,
  U+202F, U+205F and U+3000; the three tests below recognise their
  encodings on one, two and three bytes.  No white space takes four. *)
Definition isspace (c : ascii) : bool :=
  let n := nat_of_ascii c in
  ((9 <=? n) && (n <=? 13) || (28 <=? n) && (n <=? 32))%nat.

(** U+0085 is [C2 85], U+00A0 is [C2 A0]. *)
Definition isspace2 (c1 c2 : ascii) : bool :=
  let n1 := nat_of_ascii c1 in
  let n2 := nat_of_ascii c2 in
  ((n1 =? 194) && ((n2 =? 133) || (n2 =? 160)))%nat.

(** U+1680 is [E1 9A 80]; U+2000..U+200A are [E2 80 80]..[E2 80 8A];
  U+2028, U+2029 and U+202F are [E2 80 A8], [E2 80 A9] and [E2 80 AF];
  U+205F is [E2 81 9F]; U+3000 is [E3 80 80]. *)
Definition isspace3 (c1 c2 c3 : ascii) : bool :=
  let n1 := nat_of_ascii c1 in
  let n2 := nat_of_ascii c2 in
  let n3 := nat_of_ascii c3 in
  ((n1 =? 225) && (n2 =? 154) && (n3 =? 128)
   || (n1 =? 226) && (n2 =? 128)
      && ((128 <=? n3) && (n3 <=? 138) || (n3 =? 168) || (n3 =? 169) || (n3 =? 175))
   || (n1 =? 226) && (n2 =? 129) && (n3 =? 159)
   || (n1 =? 227) && (n2 =? 128) && (n3 =? 128))%nat.

(** [s.lstrip()] *)
Fixpoint lstrip (s : string) : string :=
  match s with
  | String c1 rest1 =>
      if isspace c1 then lstrip rest1
      else
        match rest1 with
        | String c2 rest2 =>
            if isspace2 c1 c2 then lstrip rest2
            else
              match rest2 with
              | String c3 rest3 => if isspace3 c1 c2 c3 then lstrip rest3 else s
              | EmptyString => s
              end
        | EmptyString => s
        end
  | EmptyString => EmptyString
  end.

(** [lstrip] on the reversed bytes: the last byte of a character comes
  first. *)
Fixpoint lstrip_reversed (s : string) : string :=
  match s with
  | String c1 rest1 =>
      if isspace c1 then lstrip_reversed rest1
      else
        match rest1 with
        | String c2 rest2 =>
            if isspace2 c2 c1 then lstrip_reversed rest2
            else
              match rest2 with
              | String c3 rest3 =>
                  if isspace3 c3 c2 c1 then lstrip_reversed rest3 else s
              | EmptyString => s
              end
        | EmptyString => s
        end
  | EmptyString => EmptyString
  end.

(** [s.rstrip()] *)
Definition rstrip (s : string) : string :=
  String.rev (lstrip_reversed (String.rev s)).

(** [s.strip()] *)
Definition strip (s : string) : string := rstrip (lstrip s).

End str.

(** google.genai.types, restricted to the attributes the source touches. *)
Record FileData := { file_uri : string; mime_type : string }.

(** The text [f"{seconds}s"] of a double.  The formatting of a Python float
  is its [repr], from which the float can be read back, so the text is
  kept as the double it prints. *)
Inductive OffsetText := SecondsText (seconds : float).

Record VideoMetadata := {
start_offset : option OffsetText;
end_offset : option OffsetText;
fps : option float;
}.

Record Part := { file_data : FileData; video_metadata : VideoMetadata }.

Inductive MediaResolution :=
| MEDIA_RESOLUTION_LOW | MEDIA_RESOLUTION_MEDIUM | MEDIA_RESOLUTION_HIGH.

Record ThinkingConfig := { thinking_budget : Z; include_thoughts : bool }.

Inductive ResponseSchema := VideoTranscriptionSchema.

Record GenerateContentConfig := {
temperature : float;
top_p : float;
seed : Z;
response_mime_type : string;
response_schema : ResponseSchema;
media_resolution : option MediaResolution;
thinking_config : option ThinkingConfig;
}.

Inductive FinishReason :=
| STOP
| OtherFinishReason (name : string).

Record UsageMetadata := {
prompt_token_count : option Z;
candidates_token_count : option Z;
thoughts_token_count : option Z;
}.

(** [response.parsed]: the schema-constrained payload, when the SDK could
  build a [VideoTranscription] from it; [None], a dict or another object
  otherwise. *)
Inductive Parsed :=
| ParsedNone
| ParsedVideoTranscription (transcription : VideoTranscription.t)
| ParsedOther.

Record GenerateContentResponse := {
usage_metadata : option UsageMetadata;
candidates : option (list (option FinishReason));
response_text : option string;
parsed : Parsed;
}.

(* ===================================================================== *)
(** ** Effects *)
(* ===================================================================== *)

(** One line written by [print]. *)
Inductive line :=
| OnlyYouTubeSupported
| ClientErrorLine (code : Z) (message : option string)
| RetryLine (retry : bool)
| ModelBanner (model : string)
| InputTokens (n : Z)
| OutputTokens (n : Z)
| ThoughtsTokens (n : Z)
| NoCandidates
| FinishReasonLine (finish_reason : option FinishReason)
| NoResponseText
| CouldNotParse.

Inductive event :=
| Print (l : line)
| GenerateContent (attempt : nat) (model : string) (contents : Part * string)
                (config : GenerateContentConfig)
| Sleep (seconds : Z).

Inductive result (A : Type) :=
| Return (a : A)
| Raise (e : exn)
| OutOfFuel.
Arguments Return {A} a.
Arguments Raise {A} e.
Arguments OutOfFuel {A}.

(** A computation: the events it performs, in order, and how it ends. *)
Definition M (A : Type) : Type := list event * result A.

Definition ret {A} (a : A) : M A := ([], Return a).
Definition raise {A} (e : exn) : M A := ([], Raise e).
Definition emit (e : event) : M unit := ([e], Return tt).
Definition print (l : line) : M unit := emit (Print l).

Definition bind {A B} (m : M A) (k : A -> M B) : M B :=
match m with
| (t, Return a) => let '(t', r) := k a in (t ++ t', r)
| (t, Raise e) => (t, Raise e)
| (t, OutOfFuel) => (t, OutOfFuel)
end.

Declare Scope M_scope.
Delimit Scope M_scope with M.
Notation "x <- m ;; k" := (bind m (fun x => k))
(at level 100, m at next level, right associativity) : M_scope.
Notation "m ;; k" := (bind m (fun _ => k))
(at level 100, right associativity) : M_scope.

Definition trace {A} (m : M A) : list event := m.1.
Definition outcome_of {A} (m : M A) : result A := m.2.

(* ===================================================================== *)
(** ** tenacity

  [for attempt in Retrying(...): with attempt: body] runs [body]; the
  attempt manager swallows an exception of the body and records it as the
  attempt's outcome (a normal exit records the result [None]).  The
  iterator then consults [retry] on that outcome.  If it declines, the
  outcome's result is taken: a recorded exception is raised as it is, a
  normal outcome ends the loop.  If it asks for a retry, [stop] is
  consulted: when it holds, [reraise=True] raises the last attempt's own
  exception and [reraise=False] raises [RetryError]; otherwise the thread
  sleeps for [wait] seconds and the next attempt starts.  The iterator is
  a [while True] loop, so the embedding takes fuel. *)
(* ===================================================================== *)

Module tenacity.

Inductive Future :=
| FutureResult
| FutureException (e : exn).

(** [fut.exception()] *)
Definition exception (fut : Future) : option exn :=
  match fut with FutureResult => None | FutureException e => Some e end.

Record RetryCallState := {
  attempt_number : nat;
  outcome : option Future;
}.

Record Retrying := {
  stop : RetryCallState -> bool;
  wait : RetryCallState -> Z;
  retry : RetryCallState -> M bool;
  reraise : bool;
}.

Definition stop_after_attempt (max_attempt_number : nat) : RetryCallState -> bool :=
  fun retry_state => (max_attempt_number <=? attempt_number retry_state)%nat.

(** [sys.maxsize / 2], the default [max] of every wait strategy. *)
Definition MAX_WAIT : Z := 4611686018427387903.

Definition wait_incrementing (start increment : Z) : RetryCallState -> Z :=
  fun retry_state =>
    let result := start + increment * (Z.of_nat (attempt_number retry_state) - 1) in
    Z.max 0 (Z.min result MAX_WAIT).

Definition future_of {A} (r : result A) : option Future :=
  match r with
  | Return _ => Some FutureResult
  | Raise e => Some (FutureException e)
  | OutOfFuel => None
  end.

Fixpoint iterate {A} (r : Retrying) (body : nat -> M A)
    (fuel : nat) (attempt : nat) : M A :=
  match fuel with
  | O => ([], OutOfFuel)
  | S fuel' =>
      let '(t, res) := body attempt in
      match future_of res with
      | None => (t, OutOfFuel)
      | Some fut =>
          let retry_state := {| attempt_number := attempt; outcome := Some fut |} in
          (_ <- (t, Return tt) ;;
           again <- retry r retry_state ;;
           if negb again then (([], res) : M A)
           else if stop r retry_state then
             match fut with
             | FutureException e =>
                 if reraise r then raise e else raise (RetryError (Some e))
             | FutureResult => raise (RetryError None)
             end
           else
             (emit (Sleep (wait r retry_state)) ;;
              iterate r body fuel' (S attempt)))%M
      end
  end.

(** The loop as the source writes it: attempts are numbered from 1. *)
Definition for_attempt_in {A} (r : Retrying) (body : nat -> M A) (fuel : nat) : M A :=
  iterate r body fuel 1%nat.

End tenacity.

(* ===================================================================== *)
(** ** transcriber.py *)
(* ===================================================================== *)

(** [genai.Client]: which backend it talks to, and the remote endpoint.
  [generate_content n model contents config] is what the [n]-th call of
  one [transcribe_video] invocation does: return a response or raise. *)
Record Client := {
vertexai : bool;
generate_content :
  nat -> string -> Part * string -> GenerateContentConfig ->
  exn + GenerateContentResponse;
}.

Module VideoTranscriber.

Record t := { client : Client }.

Definition prompt_before_timecode_format : string :=
"
**Task 1 - Script Segments**

- Watch the video and listen carefully to the audio.
- Identify each unique voice using a `voice_id` (1, 2, 3, etc.).
- Transcribe the video's audio verbatim with voice diarization.
- Include the `start_time` and `end_time` timecodes (".

Definition prompt_after_timecode_format : string :=
") for each speech segment.
- Output a JSON array where each object has the following fields:
  - `start_time`
  - `end_time`
  - `text`
  - `voice_id`

**Task 2 - Speakers**

- For each `voice_id` from Task 1, extract information about the corresponding speaker.
- Use visual and audio cues.
- If a piece of information cannot be found, use a question mark (`?`) as the value.
- Output a JSON array where each object has the following fields:
  - `voice_id`
  - `name`
  - `company`
  - `position`
  - `role_in_video`
".

Definition get_transcription_prompt (timecode_format : string) : string :=
  (prompt_before_timecode_format +:+ timecode_format +:+ prompt_after_timecode_format).

Definition YOUTUBE_WATCH_PREFIX : string := "https://www.youtube.com/watch?v=".

(** The first statement of [get_video_part]: the Cloud Storage rewrite. *)
Definition rewrite_video_uri (self : t) (video_uri : string) : string :=
  if negb (vertexai (client self)) && str.startswith video_uri "gs://"
  then "https://storage.googleapis.com/" +:+ str.removeprefix video_uri "gs://"
  else video_uri.

(** [if x:] on an optional timedelta. *)
Definition offset_truthy (o : option timedelta.t) : bool :=
  match o with Some d => timedelta.truthy d | None => false end.

(** [bool(x)] on a float: everything except 0.0 and -0.0. *)
Definition float_truthy (x : float) : bool := negb (PrimFloat.eqb x 0%float).

(** [if fps:] on an optional float. *)
Definition fps_truthy (o : option float) : bool :=
  match o with Some x => float_truthy x | None => false end.

(** [f"{d.total_seconds()}s"] *)
Definition offset_text (d : timedelta.t) : OffsetText :=
  SecondsText (timedelta.total_seconds d).

Definition get_video_part (self : t) (video_uri : string)
    (start_offset end_offset : option timedelta.t) (fps : option float)
  : M (option Part) :=
  (let video_uri := rewrite_video_uri self video_uri in
   if negb (vertexai (client self)) &&
      negb (str.startswith video_uri YOUTUBE_WATCH_PREFIX)
   then
     print OnlyYouTubeSupported ;;
     ret None
   else
     let file_data := {| file_uri := video_uri; mime_type := "video/*" |} in
     let video_metadata :=
       {| start_offset :=
            if offset_truthy start_offset then offset_text <$> start_offset else None;
          end_offset :=
            if offset_truthy end_offset then offset_text <$> end_offset else None;
          fps := if fps_truthy fps then fps else None |} in
     ret (Some {| file_data := file_data; video_metadata := video_metadata |}))%M.

(** [model or Config.DEFAULT_MODEL] *)
Definition model_or_default (model : option string) : string :=
  match model with
  | Some m => if str.truthy m then m else Config.DEFAULT_MODEL
  | None => Config.DEFAULT_MODEL
  end.

Definition get_generate_content_config (model : option string)
    (media_resolution : option MediaResolution) : GenerateContentConfig :=
  let model := model_or_default model in
  {| temperature := Config.DEFAULT_TEMPERATURE;
     top_p := Config.DEFAULT_TOP_P;
     seed := Config.DEFAULT_SEED;
     response_mime_type := "application/json";
     response_schema := VideoTranscriptionSchema;
     media_resolution := media_resolution;
     thinking_config :=
       if str.contains "2.5" model then
         if str.contains "flash" model then
           Some {| thinking_budget := 0; include_thoughts := false |}
         else if str.contains "pro" model then
           Some {| thinking_budget := 128; include_thoughts := false |}
         else None
       else None |}.

Definition _should_retry_request (retry_state : tenacity.RetryCallState) : M bool :=
  match tenacity.outcome retry_state with
  | None => ret false
  | Some outcome =>
      match tenacity.exception outcome with
      | Some (ClientError code message) =>
          (print (ClientErrorLine code message) ;;
           let retry :=
             if (code =? 400) &&
                match message with
                | Some m => str.truthy m && str.contains " try again " m
                | None => false
                end
             then true
             else if code =? 429 then true
             else false in
           print (RetryLine retry) ;;
           ret retry)%M
      | _ => ret false
      end
  end.

Definition get_retrier : tenacity.Retrying :=
  {| tenacity.stop := tenacity.stop_after_attempt 7;
     tenacity.wait := tenacity.wait_incrementing 10 1;
     tenacity.retry := _should_retry_request;
     tenacity.reraise := true |}.

(** [video_duration and video_duration >= timedelta(hours=1)] *)
Definition get_timecode_format (video_duration : option timedelta.t) : string :=
  if match video_duration with
     | Some d => timedelta.truthy d && timedelta.ge d (timedelta.of_hours 1)
     | None => false
     end
  then Config.EXTENDED_TIMECODE_FORMAT
  else Config.DEFAULT_TIMECODE_FORMAT.

(** [if count: print(...)] on an optional token count. *)
Definition print_count (mk_line : Z -> line) (o : option Z) : M unit :=
  match o with
  | Some n => if negb (n =? 0) then print (mk_line n) else ret tt
  | None => ret tt
  end.

Definition _display_response_info (response : GenerateContentResponse) : M unit :=
  (match usage_metadata response with
   | Some usage_metadata =>
       print_count InputTokens (prompt_token_count usage_metadata) ;;
       print_count OutputTokens (candidates_token_count usage_metadata) ;;
       print_count ThoughtsTokens (thoughts_token_count usage_metadata)
   | None => ret tt
   end ;;
   match candidates response with
   | None | Some [] => print NoCandidates
   | Some (finish_reason :: _) =>
       match finish_reason with
       | Some STOP => ret tt
       | _ => print (FinishReasonLine finish_reason)
       end ;;
       match response_text response with
       | Some text => if str.truthy text then ret tt else print NoResponseText
       | None => print NoResponseText
       end
   end)%M.

Definition _parse_response (response : GenerateContentResponse)
  : M VideoTranscription.t :=
  match parsed response with
  | ParsedVideoTranscription transcription =>
      ret (VideoTranscription.update_counts transcription)
  | _ =>
      (print CouldNotParse ;;
       ret VideoTranscription.default)%M
  end.

(** [fps and (fps < Config.MIN_FPS or fps > Config.MAX_FPS)] *)
Definition fps_rejected (fps : option float) : bool :=
  match fps with
  | Some f =>
      float_truthy f &&
      (PrimFloat.ltb f Config.MIN_FPS || PrimFloat.ltb Config.MAX_FPS f)
  | None => false
  end.

(** [f"FPS must be between {Config.MIN_FPS} and {Config.MAX_FPS}"] *)
Definition FPS_MESSAGE : string := "FPS must be between 0.1 and 24.0".

(** [end_offset - start_offset if start_offset and end_offset else None] *)
Definition window_duration (start_offset end_offset : option timedelta.t)
  : M (option timedelta.t) :=
  match start_offset, end_offset with
  | Some s, Some e =>
      if timedelta.truthy s && timedelta.truthy e then
        match timedelta.sub e s with
        | inr d => ret (Some d)
        | inl err => raise err
        end
      else ret None
  | _, _ => ret None
  end.

(** The prompt of one request, before [strip]. *)
Definition select_prompt (start_offset end_offset : option timedelta.t)
    (custom_prompt : option string) : M string :=
  match custom_prompt with
  | Some p =>
      if str.truthy p then ret p
      else
        (d <- window_duration start_offset end_offset ;;
         ret (get_transcription_prompt (get_timecode_format d)))%M
  | None =>
      (d <- window_duration start_offset end_offset ;;
       ret (get_transcription_prompt (get_timecode_format d)))%M
  end.

(** The body of the [with attempt:] block. *)
Definition attempt_body (self : t) (model : string) (contents : Part * string)
    (config : GenerateContentConfig) (attempt : nat) : M GenerateContentResponse :=
  (emit (GenerateContent attempt model contents config) ;;
   match generate_content (client self) attempt model contents config with
   | inr response =>
       _display_response_info response ;;
       ret response
   | inl err => raise err
   end)%M.

Definition transcribe_video (self : t) (fuel : nat) (video_uri : string)
    (start_offset end_offset : option timedelta.t) (fps : option float)
    (model custom_prompt : option string) : M VideoTranscription.t :=
  let model := model_or_default model in
  if fps_rejected fps then raise (ValueError FPS_MESSAGE)
  else
    (video_part <- get_video_part self video_uri start_offset end_offset fps ;;
     match video_part with
     | None => ret VideoTranscription.default
     | Some video_part =>
         prompt <- select_prompt start_offset end_offset custom_prompt ;;
         let config := get_generate_content_config (Some model) None in
         let contents := (video_part, str.strip prompt) in
         print (ModelBanner model) ;;
         response <- tenacity.for_attempt_in get_retrier
                       (attempt_body self model contents config) fuel ;;
         _parse_response response
     end)%M.

Definition transcribe_youtube_video (self : t) (fuel : nat) (youtube_id : string)
    (start_offset end_offset : option timedelta.t) (fps : option float)
    (model custom_prompt : option string) : M VideoTranscription.t :=
  let youtube_url := "https://www.youtube.com/watch?v=" +:+ youtube_id in
  transcribe_video self fuel youtube_url start_offset end_offset fps model custom_prompt.

Definition transcribe_cloud_storage_video (self : t) (fuel : nat) (bucket path : string)
    (start_offset end_offset : option timedelta.t) (fps : option float)
    (model custom_prompt : option string) : M VideoTranscription.t :=
  let gs_uri := "gs://" +:+ bucket +:+ "/" +:+ path in
  transcribe_video self fuel gs_uri start_offset end_offset fps model custom_prompt.

End VideoTranscriber.

(** The events of a trace that reach outside the process. *)
Definition attempts_of (tr : list event) : list nat :=
omap (fun ev => match ev with GenerateContent n _ _ _ => Some n | _ => None end) tr.

Definition sleeps_of (tr : list event) : list Z :=
omap (fun ev => match ev with Sleep s => Some s | _ => None end) tr.

(** Calls and sleeps in the order they happen. *)
Inductive step := Call (attempt : nat) | Wait (seconds : Z).

Definition schedule_of (tr : list event) : list step :=
omap (fun ev => match ev with
                | GenerateContent n _ _ _ => Some (Call n)
                | Sleep s => Some (Wait s)
                | Print _ => None
                end) tr.

(* ===================================================================== *)
(** ** config.py: the environment

  The class attributes of [Config] are computed once, when the module is
  imported, from the process environment; the class methods read the
  attributes or the environment.  The environment is a finite map from
  names to values. *)
(* ===================================================================== *)

(** [s.lower()].  Only its comparison with ["true"] is used; no character
  outside ASCII lowercases to one of [t], [r], [u], [e], so folding the
  ASCII capitals decides that comparison as Python does. *)
Definition ascii_lower (c : ascii) : ascii :=
let n := nat_of_ascii c in
if ((65 <=? n) && (n <=? 90))%nat then ascii_of_nat (n + 32) else c.

Fixpoint str_lower (s : string) : string :=
match s with
| EmptyString => EmptyString
| String c rest => String (ascii_lower c) (str_lower rest)
end.

(** [str(b)] *)
Definition str_of_bool (b : bool) : string := if b then "True" else "False".

(** [os.getenv(key, fallback)] *)
Definition getenv (environ : gmap string string) (key fallback : string) : string :=
default fallback (environ !! key).

Module ConfigEnv.

Record t := mk {
  GOOGLE_GENAI_USE_VERTEXAI : bool;
  GOOGLE_CLOUD_PROJECT : string;
  GOOGLE_CLOUD_LOCATION : string;
  GOOGLE_API_KEY : string;
}.

(** The class body, evaluated against the environment at import time. *)
Definition load (environ : gmap string string) : t :=
{| GOOGLE_GENAI_USE_VERTEXAI :=
     bool_decide (str_lower (getenv environ "GOOGLE_GENAI_USE_VERTEXAI" "False") = "true");
   GOOGLE_CLOUD_PROJECT := getenv environ "GOOGLE_CLOUD_PROJECT" "";
   GOOGLE_CLOUD_LOCATION := getenv environ "GOOGLE_CLOUD_LOCATION" "global";
   GOOGLE_API_KEY := getenv environ "GOOGLE_API_KEY" "" |}.

Inductive message :=
| ProjectRequired
| ApiKeyRequired.

(** [validate_config]: what it prints and what it returns. *)
Definition validate_config (cls : t) : list message * bool :=
if GOOGLE_GENAI_USE_VERTEXAI cls then
  if str.truthy (GOOGLE_CLOUD_PROJECT cls) then ([], true) else ([ProjectRequired], false)
else
  if str.truthy (GOOGLE_API_KEY cls) then ([], true) else ([ApiKeyRequired], false).

Definition setup_environment (cls : t) (environ : gmap string string)
  : gmap string string :=
<["GOOGLE_API_KEY" := GOOGLE_API_KEY cls]>
  (<["GOOGLE_CLOUD_LOCATION" := GOOGLE_CLOUD_LOCATION cls]>
     (<["GOOGLE_CLOUD_PROJECT" := GOOGLE_CLOUD_PROJECT cls]>
        (<["GOOGLE_GENAI_USE_VERTEXAI" := str_of_bool (GOOGLE_GENAI_USE_VERTEXAI cls)]>
           environ))).

Definition get_service_name (environ : gmap string string) : string :=
let use_vertex_ai :=
  bool_decide (str_lower (getenv environ "GOOGLE_GENAI_USE_VERTEXAI" "False") = "true") in
if use_vertex_ai then "Vertex AI" else "Google AI Studio".

End ConfigEnv.

(** [VideoTranscriber.__init__], up to the construction of the SDK client:
  the environment it leaves behind, the lines it prints, and either the
  error it raises or the API key it hands to the client ([None] when the
  client is built without one) together with the service name it
  records. *)
Definition INVALID_CONFIGURATION : string :=
"Invalid configuration. Please check your environment variables.".

Inductive init_line :=
| ConfigLine (m : ConfigEnv.message)
| UsingService (service_name : string).

Definition VideoTranscriber_init (cls : ConfigEnv.t) (environ : gmap string string)
    (skip_config_validation : bool)
  : gmap string string * list init_line * (exn + (option string * string)) :=
let environ :=
  if skip_config_validation then environ else ConfigEnv.setup_environment cls environ in
let '(messages, valid) :=
  if skip_config_validation then ([], true) else ConfigEnv.validate_config cls in
if negb valid then
  (environ, ConfigLine <$> messages, inl (ValueError INVALID_CONFIGURATION))
else
  let '(environ, api_key) :=
    match environ !! "GOOGLE_API_KEY" with
    | Some api_key =>
        if str.truthy api_key
        then (<["GOOGLE_API_KEY" := api_key]> environ, Some api_key)
        else (environ, None)
    | None => (environ, None)
    end in
  let service_name := ConfigEnv.get_service_name environ in
  (environ, (ConfigLine <$> messages) ++ [UsingService service_name],
   inr (api_key, service_name)).

(* ===================================================================== *)
(** ** visualizer.py

  The rows that the display and export functions build.  Rendering them
  (pandas frames, CSV text) is the library's and is not modelled. *)
(* ===================================================================== *)

Module TranscriptionVisualizer.

Definition bgcolor_column : string := "bg_color".

Definition known_speaker_colors : list string :=
[ "#669DF6"; "#EE675C"; "#FCC934"; "#5BB974";
  "#8AB4F8"; "#F28B82"; "#FDD663"; "#81C995";
  "#AECBFA"; "#F6AEA9"; "#FDE293"; "#A8DAB5";
  "#D2E3FC"; "#FAD2CF"; "#FEEFC3"; "#CEEAD6";
  "#E8F0FE"; "#FCE8E6"; "#FEF7E0"; "#E6F4EA" ].

Definition unknown_speaker_colors : list string :=
[ "#80868B"; "#9AA0A6"; "#BDC1C6"; "#DADCE0"; "#E8EAED"; "#F1F3F4" ].

(** The value that the [i]-th [next] on [itertools.cycle(palette)] yields,
  counting from 0. *)
Definition cycle_nth (palette : list string) (i : nat) : string :=
palette !!! (i mod length palette)%nat.

(** The loop of [get_color_for_voice_mapping]: [known] and [unknown] count
  the values already drawn from the two cycles. *)
Fixpoint color_mapping_loop (speakers : list Speaker.t) (known unknown : nat)
    (mapping : gmap Z string) : gmap Z string :=
match speakers with
| [] => mapping
| speaker :: rest =>
    if decide (Speaker.name speaker ≠ Config.NOT_FOUND_MARKER) then
      color_mapping_loop rest (S known) unknown
        (<[Speaker.voice_id speaker := cycle_nth known_speaker_colors known]> mapping)
    else
      color_mapping_loop rest known (S unknown)
        (<[Speaker.voice_id speaker := cycle_nth unknown_speaker_colors unknown]> mapping)
end.

Definition get_color_for_voice_mapping (speakers : list Speaker.t) : gmap Z string :=
color_mapping_loop speakers 0 0 ∅.

(** [color_for_voice.get(voice_id, "red")] *)
Definition color_or_red (color_for_voice : gmap Z string) (voice_id : Z) : string :=
default "red" (color_for_voice !! voice_id).

Definition sanitize_field (s symbol_if_unknown : string) : string :=
if decide (s = Config.NOT_FOUND_MARKER) then symbol_if_unknown else s.

(** [list(yield_rows())] of [display_speakers]: the header, then one row
  per speaker. *)
Definition speakers_rows (transcription : VideoTranscription.t) : list (list string) :=
let color_for_voice :=
  get_color_for_voice_mapping (VideoTranscription.speakers transcription) in
["voice_id"; "name"; "company"; "position"; "role_in_video"; bgcolor_column] ::
((λ speaker,
    [ pretty (Speaker.voice_id speaker);
      sanitize_field (Speaker.name speaker) Config.NOT_FOUND_MARKER;
      sanitize_field (Speaker.company speaker) Config.NOT_FOUND_MARKER;
      sanitize_field (Speaker.position speaker) Config.NOT_FOUND_MARKER;
      sanitize_field (Speaker.role_in_video speaker) Config.NOT_FOUND_MARKER;
      color_or_red color_for_voice (Speaker.voice_id speaker) ])
   <$> VideoTranscription.speakers transcription).

(** [{speaker.voice_id: speaker for speaker in speakers}] *)
Definition speaker_for_voice (speakers : list Speaker.t) : gmap Z Speaker.t :=
foldl (λ m speaker, <[Speaker.voice_id speaker := speaker]> m) ∅ speakers.

(** The label of a voice, before the ditto mark is considered. *)
Definition speaker_label (speaker_for_voice : gmap Z Speaker.t) (current_voice : Z)
  : string :=
let speaker_label :=
  match speaker_for_voice !! current_voice with
  | Some speaker =>
      if decide (Speaker.name speaker ≠ Config.NOT_FOUND_MARKER) then
        Speaker.name speaker
      else if decide (Speaker.position speaker ≠ Config.NOT_FOUND_MARKER) then
        "[voice " +:+ pretty current_voice +:+ "][" +:+ Speaker.position speaker +:+ "]"
      else if decide (Speaker.role_in_video speaker ≠ Config.NOT_FOUND_MARKER) then
        "[voice " +:+ pretty current_voice +:+ "][" +:+ Speaker.role_in_video speaker +:+ "]"
      else ""
  | None => ""
  end in
if str.truthy speaker_label then speaker_label
else "[voice " +:+ pretty current_voice +:+ "]".

(** The quote mark shown for consecutive segments of one voice. *)
Definition DITTO : string := String (ascii_of_nat 34) EmptyString.

Fixpoint script_rows_loop (color_for_voice : gmap Z string)
    (speaker_for_voice : gmap Z Speaker.t) (previous_voice : option Z)
    (segments : list TranscriptSegment.t) : list (list string) :=
match segments with
| [] => []
| segment :: rest =>
    let current_voice := TranscriptSegment.voice_id segment in
    let label := speaker_label speaker_for_voice current_voice in
    let display_speaker :=
      if decide (Some current_voice ≠ previous_voice) then label else DITTO in
    [ TranscriptSegment.start_time segment;
      TranscriptSegment.end_time segment;
      display_speaker;
      TranscriptSegment.text segment;
      color_or_red color_for_voice current_voice ] ::
    script_rows_loop color_for_voice speaker_for_voice (Some current_voice) rest
end.

(** [list(yield_rows())] of [display_script_segments]. *)
Definition script_segments_rows (transcription : VideoTranscription.t)
  : list (list string) :=
["start_time"; "end_time"; "speaker"; "text"; bgcolor_column] ::
script_rows_loop
  (get_color_for_voice_mapping (VideoTranscription.speakers transcription))
  (speaker_for_voice (VideoTranscription.speakers transcription))
  None
  (VideoTranscription.script_segments transcription).

(** One row of the segments file of [export_to_csv]. *)
Record SegmentRow := {
  row_start_time : string;
  row_end_time : string;
  row_speaker_name : string;
  row_speaker_company : string;
  row_speaker_position : string;
  row_text : string;
  row_voice_id : Z;
}.

Definition segment_row (transcription : VideoTranscription.t)
    (segment : TranscriptSegment.t) : SegmentRow :=
let speaker :=
  VideoTranscription.get_speaker_by_voice_id transcription
    (TranscriptSegment.voice_id segment) in
{| row_start_time := TranscriptSegment.start_time segment;
   row_end_time := TranscriptSegment.end_time segment;
   row_speaker_name :=
     match speaker with Some sp => Speaker.name sp | None => Config.NOT_FOUND_MARKER end;
   row_speaker_company :=
     match speaker with Some sp => Speaker.company sp | None => Config.NOT_FOUND_MARKER end;
   row_speaker_position :=
     match speaker with Some sp => Speaker.position sp | None => Config.NOT_FOUND_MARKER end;
   row_text := TranscriptSegment.text segment;
   row_voice_id := TranscriptSegment.voice_id segment |}.

(** The data handed to one [to_csv] call; a speaker row and a translation
  row have the fields of the model they come from. *)
Inductive csv_data :=
| SegmentsData (rows : list SegmentRow)
| SpeakersData (rows : list Speaker.t)
| TranslationsData (rows : list TranslationTable.t).

(** [export_to_csv]: the files written, in order, and the file names that
  the closing message lists. *)
Definition export_to_csv (transcription : VideoTranscription.t) (base_filename : string)
  : list (string * csv_data) * list string :=
let has_translations :=
  match VideoTranscription.translation_table transcription with [] => false | _ => true end in
( [ (base_filename +:+ "_segments.csv",
     SegmentsData (segment_row transcription
                     <$> VideoTranscription.script_segments transcription));
    (base_filename +:+ "_speakers.csv",
     SpeakersData (VideoTranscription.speakers transcription)) ]
  ++ (if has_translations
      then [ (base_filename +:+ "_translations.csv",
              TranslationsData (VideoTranscription.translation_table transcription)) ]
      else []),
  [ base_filename +:+ "_segments.csv"; base_filename +:+ "_speakers.csv" ]
  ++ (if has_translations then [ base_filename +:+ "_translations.csv" ] else []) ).

End TranscriptionVisualizer.

(* ===================================================================== *)
(** ** app.py: the speaker distribution chart *)
(* ===================================================================== *)

(** [speaker_counts] of the analytics tab: for each speaker, the number of
  segments found under its name, and 0 for a speaker without a name. *)
Definition speaker_counts (transcription : VideoTranscription.t) : list Z :=
(λ speaker,
   if decide (Speaker.name speaker ≠ "?") then
     Z.of_nat (length (VideoTranscription.get_segments_by_speaker transcription
                         (Speaker.name speaker)))
   else 0)
<$> VideoTranscription.speakers transcription.

(* ===================================================================== *)
(** ** Vocabulary of the statements *)
(* ===================================================================== *)

(** What the policy is meant to retry: a client-level error that either
  signals rate limiting, or is a bad request whose message holds the
  phrase [" try again "]. *)
Definition transient (e : exn) : Prop :=
∃ code message,
  e = ClientError code message ∧
  (code = 429 ∨
   (code = 400 ∧
    ∃ m pre post, message = Some m ∧ m = pre +:+ " try again " +:+ post)).

(** The retry state tenacity hands to the predicate after a failed attempt. *)
Definition failed (attempt : nat) (e : exn) : tenacity.RetryCallState :=
{| tenacity.attempt_number := attempt;
   tenacity.outcome := Some (tenacity.FutureException e) |}.

(** Linear backoff: the wait that follows attempt [k], i.e. precedes the
  [k]-th retry. *)
Definition BASE_DELAY : Z := 10.
Definition INCREMENT : Z := 1.
Definition backoff_delay (k : nat) : Z := BASE_DELAY + (Z.of_nat k - 1) * INCREMENT.

(** [n] strictly sequential attempts starting with attempt [k], a backoff
  wait between each two of them. *)
Fixpoint backoff_schedule (k n : nat) : list step :=
match n with
| O => []
| S n' =>
    Call k ::
    match n' with
    | O => []
    | S _ => Wait (backoff_delay k) :: backoff_schedule (S k) n'
    end
end.

(** A computation that returns and touches neither the network nor the
  clock. *)
Definition quiet {A} (m : M A) : Prop :=
schedule_of (trace m) = [] ∧ ∃ a, outcome_of m = Return a.

(** The voice of the segment before position [i]. *)
Definition voice_before (previous_voice : option Z) (segments : list TranscriptSegment.t)
    (i : nat) : option Z :=
match i with
| O => previous_voice
| S j => TranscriptSegment.voice_id <$> segments !! j
end.

(** The requests of a trace, without their attempt numbers. *)
Definition requests_of (tr : list event)
  : list (string * (Part * string) * GenerateContentConfig) :=
omap (fun ev => match ev with
                | GenerateContent _ model contents config => Some (model, contents, config)
                | _ => None
                end) tr.

(** The calls and the waits of a schedule. *)
Definition calls_of (s : list step) : list nat :=
omap (fun st => match st with Call k => Some k | Wait _ => None end) s.

Definition waits_of (s : list step) : list Z :=
omap (fun st => match st with Wait w => Some w | Call _ => None end) s.

(** Seconds slept in total. *)
Definition total_wait (tr : list event) : Z := foldr Z.add 0 (sleeps_of tr).

(* ===================================================================== *)
(** ** Sample data *)
(* ===================================================================== *)

(** Sample data: two speakers named Jane, with voice ids 1 and 3. *)
Module Sample.

Definition segment (start_time end_time text : string) (voice_id : Z)
  : TranscriptSegment.t :=
  TranscriptSegment.mk start_time end_time text voice_id None None None None.

Definition seg1 := segment "00:02" "00:05" "Hello, welcome." 1.
Definition seg2 := segment "00:05" "00:09" "Thanks for having me." 2.
Definition seg3 := segment "00:09" "00:12" "Glad to be here too." 3.
Definition seg4 := segment "00:12" "00:20" "Let us begin." 1.

Definition jane1 := Speaker.mk 1 "Jane" "Tech Corp" "CEO" "Host".
Definition bob := Speaker.mk 2 "Bob" "?" "?" "Guest".
Definition jane3 := Speaker.mk 3 "Jane" "Other Corp" "?" "Guest".

Definition two_janes : VideoTranscription.t :=
  VideoTranscription.mk [seg1; seg2; seg3; seg4] [jane1; bob; jane3] []
                        None 0 0 None.

(** Three segments and one speaker, with embedded counts of 99. *)
Definition wrong_counts : VideoTranscription.t :=
  VideoTranscription.mk [seg1; seg2; seg4] [jane1] [] (Some "00:20")
                        99 99 (Some "en").

End Sample.

Module SampleClients.

Definition youtube_url : string := "https://www.youtube.com/watch?v=abc123".
Definition direct_url : string := "https://example.com/video.mp4".
Definition bucket_uri : string := "gs://bucket/video.mp4".

Definition ok_response : GenerateContentResponse :=
  {| usage_metadata :=
       Some {| prompt_token_count := Some 1234;
               candidates_token_count := Some 56;
               thoughts_token_count := None |};
     candidates := Some [Some STOP];
     response_text := Some "(payload)";
     parsed := ParsedVideoTranscription Sample.wrong_counts |}.

Definition unparsed_response : GenerateContentResponse :=
  {| usage_metadata := None;
     candidates := None;
     response_text := None;
     parsed := ParsedNone |}.

Definition studio
    (remote : nat → string → Part * string → GenerateContentConfig →
              exn + GenerateContentResponse) : VideoTranscriber.t :=
  {| VideoTranscriber.client := {| vertexai := false; generate_content := remote |} |}.

(** Every call succeeds. *)
Definition studio_ok : VideoTranscriber.t :=
  studio (λ _ _ _ _, inr ok_response).

(** Every call is rate limited; the seventh error is recognisable. *)
Definition quota_error (attempt : nat) : exn :=
  ClientError 429
    (Some (if (attempt =? 7)%nat then "Quota exceeded (seventh call)"
           else "Quota exceeded")).

Definition studio_rate_limited : VideoTranscriber.t :=
  studio (λ attempt _ _ _, inl (quota_error attempt)).

(** Three rate-limited calls, then success. *)
Definition studio_flaky : VideoTranscriber.t :=
  studio (λ attempt _ _ _,
            if (attempt <=? 3)%nat then inl (quota_error attempt) else inr ok_response).

(** A server-side fault whose message nevertheless says to try again. *)
Definition server_fault : exn := ServerError 503 (Some "Overloaded, please try again later").

Definition studio_server_fault : VideoTranscriber.t :=
  studio (λ _ _ _ _, inl server_fault).

Definition sample_part : Part :=
  {| file_data := {| file_uri := youtube_url; mime_type := "video/*" |};
     video_metadata := {| start_offset := None; end_offset := None; fps := None |} |}.

Definition sample_config : GenerateContentConfig :=
  VideoTranscriber.get_generate_content_config None None.

End SampleClients.

Module MoreSamples.

(** The enterprise backend, every call succeeding. *)
Definition vertex_ok : VideoTranscriber.t :=
{| VideoTranscriber.client :=
     {| vertexai := true;
        generate_content := λ _ _ _ _, inr SampleClients.ok_response |} |}.

(** The request that the default arguments build for the sample URL. *)
Definition default_request : string * (Part * string) * GenerateContentConfig :=
( Config.DEFAULT_MODEL,
  ( SampleClients.sample_part,
    str.strip (VideoTranscriber.get_transcription_prompt Config.DEFAULT_TIMECODE_FORMAT) ),
  VideoTranscriber.get_generate_content_config (Some Config.DEFAULT_MODEL) None ).

(** A speaker that was heard but not identified. *)
Definition anonymous : Speaker.t := Speaker.mk 4 "?" "?" "?" "?".

(** Two entries for voice 1. *)
Definition janet1 : Speaker.t := Speaker.mk 1 "Janet" "Tech Corp" "CTO" "Guest".

(** Two speakers with distinct names and voice ids, and their segments. *)
Definition panel : VideoTranscription.t :=
VideoTranscription.mk [Sample.seg1; Sample.seg2; Sample.seg4] [Sample.jane1; Sample.bob] []
                      None 3 2 None.

(** The same panel with two consecutive segments of voice 1. *)
Definition monologue : VideoTranscription.t :=
VideoTranscription.mk [Sample.seg1; Sample.seg4; Sample.seg2] [Sample.jane1; Sample.bob] []
                      None 3 2 None.

(** A segment document without its text. *)
Definition segment_without_text : list (string * json) :=
[ ("start_time", JStr "00:02"); ("end_time", JStr "00:05"); ("voice_id", JInt 1) ].

End MoreSamples.

(* ===================================================================== *)
(** * Properties of the data model *)
(* ===================================================================== *)

Section DataModel.
Import VideoTranscription.

Implicit Types (self : VideoTranscription.t) (speaker_name : string).

(** The append loop computes a filter, behind what was accumulated. *)
Lemma collect_segments_loop_filter voice_id script segments :
  collect_segments_loop voice_id script segments =
  segments ++ filter (λ seg, TranscriptSegment.voice_id seg = voice_id) script.
Proof.
  revert segments.
  induction script as [|segment rest IH]; intros segments; simpl.
  - by rewrite app_nil_r.
  - rewrite filter_cons. case_decide.
    + rewrite IH. by rewrite <- app_assoc.
    + apply IH.
Qed.

Lemma find_speaker_loop_first pre sp post speaker_name :
  Speaker.name sp = speaker_name →
  Forall (λ s, Speaker.name s ≠ speaker_name) pre →
  find_speaker_loop (pre ++ sp :: post) speaker_name = Some sp.
Proof.
  intros Hsp Hpre.
  induction Hpre as [|s pre Hs _ IH]; simpl.
  - by rewrite decide_True.
  - by rewrite decide_False.
Qed.

Lemma find_speaker_loop_absent speakers speaker_name :
  Forall (λ s, Speaker.name s ≠ speaker_name) speakers →
  find_speaker_loop speakers speaker_name = None.
Proof.
  induction 1 as [|s rest Hs _ IH]; simpl; [done|].
  by rewrite decide_False.
Qed.

Lemma get_segments_by_speaker_sublist self speaker_name :
  get_segments_by_speaker self speaker_name `sublist_of` script_segments self.
Proof.
  unfold get_segments_by_speaker.
  destruct (find_speaker_loop _ _) as [speaker|].
  - rewrite collect_segments_loop_filter. simpl. apply sublist_filter.
  - apply sublist_nil_l.
Qed.

(** C8.  The speaker is resolved as the first entry of [speakers] whose
    [name] is exactly the given string, and the answer is exactly the
    segments of [script_segments] carrying that entry's [voice_id]; later
    speakers of the same name play no part. *)
Theorem get_segments_by_speaker_first_match self speaker_name pre sp post :
  speakers self = pre ++ sp :: post →
  Speaker.name sp = speaker_name →
  Forall (λ s, Speaker.name s ≠ speaker_name) pre →
  get_segments_by_speaker self speaker_name =
  filter (λ seg, TranscriptSegment.voice_id seg = Speaker.voice_id sp)
         (script_segments self).
Proof.
  intros Hsplit Hname Hpre. unfold get_segments_by_speaker.
  rewrite Hsplit, (find_speaker_loop_first pre sp post speaker_name Hname Hpre).
  by rewrite collect_segments_loop_filter.
Qed.

(** C10.  A name carried by no speaker yields the empty list, and whatever
    is returned is a subsequence of [script_segments]: same elements,
    same relative order. *)
Theorem get_segments_by_speaker_unknown_name_and_order self speaker_name :
  (Forall (λ s, Speaker.name s ≠ speaker_name) (speakers self) →
   get_segments_by_speaker self speaker_name = []) ∧
  get_segments_by_speaker self speaker_name `sublist_of` script_segments self.
Proof.
  split; [|apply get_segments_by_speaker_sublist].
  intros Habsent. unfold get_segments_by_speaker.
  by rewrite find_speaker_loop_absent.
Qed.

End DataModel.

Lemma get_segments_by_speaker_first_match_witness :
VideoTranscription.get_segments_by_speaker Sample.two_janes "Jane" =
[Sample.seg1; Sample.seg4].
Proof.
rewrite (get_segments_by_speaker_first_match Sample.two_janes "Jane"
           [] Sample.jane1 [Sample.bob; Sample.jane3]).
- reflexivity.
- reflexivity.
- reflexivity.
- constructor.
Defined.

Lemma get_segments_by_speaker_unknown_name_witness :
VideoTranscription.get_segments_by_speaker Sample.two_janes "Alice" = [].
Proof.
apply (get_segments_by_speaker_unknown_name_and_order Sample.two_janes "Alice").
repeat constructor; discriminate.
Defined.

(* ===================================================================== *)
(** * Round trip through the external JSON form *)
(* ===================================================================== *)

Section RoundTrip.

(** Whatever strings validation reads as whole numbers. *)
Variable lax_int : string → option Z.

Lemma optional_str_round_trip (o : option string) :
  Json.as_optional_str (Json.of_optional_str o) = Some o.
Proof. by destruct o. Qed.

Lemma segment_round_trip (seg : TranscriptSegment.t) :
  TranscriptSegmentJson.model_validate lax_int (TranscriptSegmentJson.model_dump seg) = Some seg.
Proof.
  by destruct seg as [st en tx vid [emo|] [tn|] [el|] [sr|]].
Qed.

Lemma speaker_round_trip (sp : Speaker.t) :
  SpeakerJson.model_validate lax_int (SpeakerJson.model_dump sp) = Some sp.
Proof. by destruct sp. Qed.

Lemma translation_round_trip (row : TranslationTable.t) :
  TranslationTableJson.model_validate lax_int (TranslationTableJson.model_dump row) = Some row.
Proof. by destruct row. Qed.

Lemma as_list_of_round_trip {A} (dump : A → json) (validate : json → option A)
    (l : list A) :
  (∀ x, validate (dump x) = Some x) →
  VideoTranscriptionJson.as_list_of validate (JList (dump <$> l)) = Some l.
Proof. intros Hx. cbn. by apply mapM_fmap_Some. Qed.

(** C9.  Dumping an aggregate to its external JSON form and validating
    that document against the model declarations gives back the same
    aggregate: both counts and every field of every segment, speaker and
    translation entry. *)
Theorem model_dump_validate_round_trip (self : VideoTranscription.t) :
  VideoTranscriptionJson.model_validate lax_int (VideoTranscriptionJson.model_dump self)
  = Some self.
Proof.
  unfold VideoTranscriptionJson.model_validate, VideoTranscriptionJson.model_dump.
  cbv -[VideoTranscriptionJson.as_list_of fmap Json.as_optional_str
        Json.of_optional_str TranscriptSegmentJson.model_dump
        TranscriptSegmentJson.model_validate SpeakerJson.model_dump
        SpeakerJson.model_validate TranslationTableJson.model_dump
        TranslationTableJson.model_validate
        VideoTranscription.script_segments VideoTranscription.speakers
        VideoTranscription.translation_table VideoTranscription.video_duration
        VideoTranscription.total_segments VideoTranscription.total_speakers
        VideoTranscription.language_detected].
  rewrite (as_list_of_round_trip _ _ _ segment_round_trip).
  rewrite (as_list_of_round_trip _ _ _ speaker_round_trip).
  rewrite (as_list_of_round_trip _ _ _ translation_round_trip).
  rewrite !optional_str_round_trip.
  by destruct self.
Qed.
End RoundTrip.

(* ===================================================================== *)
(** * The response interpreter *)
(* ===================================================================== *)

Section ResponseInterpreter.
Import VideoTranscription VideoTranscriber.

(** C5.  When the payload is a [VideoTranscription], the interpreter
    returns it with both counts recomputed from the lists it holds; the
    lists themselves are untouched and the counts the model reported are
    discarded. *)
Theorem parse_response_recomputes_counts response transcription :
  parsed response = ParsedVideoTranscription transcription →
  ∃ r, outcome_of (_parse_response response) = Return r ∧
       r = update_counts transcription ∧
       script_segments r = script_segments transcription ∧
       speakers r = speakers transcription ∧
       total_segments r = Z.of_nat (length (script_segments transcription)) ∧
       total_speakers r = Z.of_nat (length (speakers transcription)).
Proof.
  intros Hparsed. exists (update_counts transcription).
  unfold _parse_response. rewrite Hparsed. by repeat split.
Qed.

(** C6.  When the payload is anything but a [VideoTranscription], the
    interpreter returns normally with the empty aggregate: no segments,
    no speakers, both counts zero. *)
Theorem parse_response_unparseable_is_empty response :
  (∀ transcription, parsed response ≠ ParsedVideoTranscription transcription) →
  ∃ r, outcome_of (_parse_response response) = Return r ∧
       script_segments r = [] ∧ speakers r = [] ∧
       total_segments r = 0 ∧ total_speakers r = 0.
Proof.
  intros Hnot. exists VideoTranscription.default.
  unfold _parse_response.
  destruct (parsed response) as [|transcription|]; [done| |done].
  by destruct (Hnot transcription).
Qed.

End ResponseInterpreter.

(** Three segments with an embedded count of 99: the count comes out as 3. *)
Lemma parse_response_recomputes_counts_witness :
  ∃ r, outcome_of (VideoTranscriber._parse_response SampleClients.ok_response) = Return r ∧
       VideoTranscription.total_segments Sample.wrong_counts = 99 ∧
       VideoTranscription.total_segments r = 3 ∧
       VideoTranscription.total_speakers r = 1.
Proof.
  destruct (parse_response_recomputes_counts SampleClients.ok_response
              Sample.wrong_counts eq_refl)
    as (r & Hr & _ & _ & _ & Hsegments & Hspeakers).
  exists r. split; [exact Hr|]. split; [reflexivity|]. split; assumption.
Defined.

Lemma parse_response_unparseable_is_empty_witness :
  ∃ r, outcome_of (VideoTranscriber._parse_response SampleClients.unparsed_response)
       = Return r ∧
       VideoTranscription.script_segments r = [] ∧ VideoTranscription.speakers r = [] ∧
       VideoTranscription.total_segments r = 0 ∧ VideoTranscription.total_speakers r = 0.
Proof.
  apply (parse_response_unparseable_is_empty SampleClients.unparsed_response).
  intros transcription. discriminate.
Defined.

(* ===================================================================== *)
(** * Strings *)
(* ===================================================================== *)

Section Strings.

Lemma append_nil (s : string) : "" +:+ s = s.
Proof. reflexivity. Qed.

Lemma append_cons (c : ascii) (s1 s2 : string) :
  String c s1 +:+ s2 = String c (s1 +:+ s2).
Proof. reflexivity. Qed.

Lemma prefix_spec (p s : string) :
  String.prefix p s = true ↔ ∃ post, s = p +:+ post.
Proof.
  revert s. induction p as [|a p IH]; intros s; simpl.
  - destruct s; split; eauto.
  - destruct s as [|b s]; simpl.
    + split; [done|]. by intros [post ?].
    + destruct (Ascii.ascii_dec a b) as [->|Hne].
      * rewrite IH.
        split; intros [post Hpost]; exists post; rewrite append_cons in *; congruence.
      * split; [done|]. intros [post Hpost]. rewrite append_cons in Hpost. congruence.
Qed.

Lemma contains_unfold (needle haystack : string) :
  str.contains needle haystack =
  String.prefix needle haystack ||
  match haystack with
  | EmptyString => false
  | String _ rest => str.contains needle rest
  end.
Proof. by destruct haystack. Qed.

(** [needle in haystack] holds exactly when the haystack splits around a
    copy of the needle. *)
Lemma contains_spec (needle haystack : string) :
  str.contains needle haystack = true ↔
  ∃ pre post, haystack = pre +:+ needle +:+ post.
Proof.
  split.
  - induction haystack as [|c rest IH]; rewrite contains_unfold; intros H.
    + rewrite orb_false_r in H. apply prefix_spec in H as [post Hpost].
      by exists "", post.
    + apply orb_true_iff in H as [H|H].
      * apply prefix_spec in H as [post Hpost]. by exists "", post.
      * destruct (IH H) as (pre & post & ->). by exists (String c pre), post.
  - intros (pre & post & ->).
    induction pre as [|c pre IH]; rewrite contains_unfold.
    + apply orb_true_iff. left. apply prefix_spec. rewrite append_nil. eauto.
    + apply orb_true_iff. right. by rewrite append_cons.
Qed.

Lemma startswith_app (p s : string) : str.startswith (p +:+ s) p = true.
Proof. apply prefix_spec. eauto. Qed.

End Strings.

(* ===================================================================== *)
(** * The retry policy *)
(* ===================================================================== *)

Section RetryPolicy.
Import VideoTranscriber.

Lemma schedule_of_app (t1 t2 : list event) :
  schedule_of (t1 ++ t2) = schedule_of t1 ++ schedule_of t2.
Proof. apply omap_app. Qed.

Lemma contains_nonempty (m : string) :
  str.contains " try again " m = true → str.truthy m = true.
Proof. by destruct m. Qed.

(** The predicate always answers, and only prints while doing so. *)
Lemma should_retry_request_runs (retry_state : tenacity.RetryCallState) :
  ∃ log again,
    _should_retry_request retry_state = (log, Return again) ∧ schedule_of log = [].
Proof.
  unfold _should_retry_request.
  destruct (tenacity.outcome retry_state) as [[|[]]|]; simpl; eauto.
Qed.

Lemma should_retry_request_true_iff (attempt : nat) (e : exn) :
  outcome_of (_should_retry_request (failed attempt e)) = Return true ↔ transient e.
Proof.
  unfold transient.
  destruct e as [msg| |code message|code message|cls|last]; simpl;
    try (split; [discriminate | by intros (? & ? & ? & _)]).
  split.
  - intros H.
    destruct (Z.eqb_spec code 400) as [->|H400]; simpl in H.
    + destruct message as [m|]; [|discriminate].
      destruct (str.truthy m); [|discriminate]. simpl in H.
      destruct (str.contains " try again " m) eqn:Hin; [|discriminate].
      apply contains_spec in Hin as (pre & post & ->).
      exists 400, (Some (pre +:+ " try again " +:+ post)). split; [done|].
      right. split; [done|]. eauto.
    + destruct (Z.eqb_spec code 429) as [->|]; [|discriminate].
      exists 429, message. auto.
  - intros (code' & message' & [= <- <-] & [->|[-> (m & pre & post & -> & Hm)]]).
    + reflexivity.
    + assert (str.contains " try again " m = true) as Hin
        by (apply contains_spec; eauto).
      cbn [Z.eqb Pos.eqb andb]. by rewrite (contains_nonempty m Hin), Hin.
Qed.

Lemma should_retry_request_false_iff (attempt : nat) (e : exn) :
  outcome_of (_should_retry_request (failed attempt e)) = Return false ↔ ¬ transient e.
Proof.
  rewrite <- (should_retry_request_true_iff attempt).
  destruct (should_retry_request_runs (failed attempt e)) as (log & again & -> & _).
  unfold outcome_of; simpl. destruct again; split; try discriminate; done.
Qed.

End RetryPolicy.

Section RetryLoop.
Import VideoTranscriber.

Context {A : Type} (body : nat → M A).

Lemma wait_is_backoff_delay (k : nat) (fut : option tenacity.Future) :
  (1 ≤ k ≤ 7)%nat →
  tenacity.wait get_retrier
    {| tenacity.attempt_number := k; tenacity.outcome := fut |}
  = backoff_delay k.
Proof.
  intros Hk.
  cbn [tenacity.wait get_retrier].
  unfold tenacity.wait_incrementing, backoff_delay, BASE_DELAY, INCREMENT,
    tenacity.MAX_WAIT.
  cbn [tenacity.attempt_number]. lia.
Qed.

(** An attempt that succeeds ends the loop with its result. *)
Lemma iterate_success fuel k t a :
  body k = (t, Return a) →
  tenacity.iterate get_retrier body (S fuel) k = (t, Return a).
Proof.
  intros Hbody. simpl. rewrite Hbody. simpl. by rewrite app_nil_r.
Qed.

(** One turn of the loop after a failed attempt. *)
Lemma iterate_failure fuel k t e log again :
  body k = (t, Raise e) →
  _should_retry_request (failed k e) = (log, Return again) →
  tenacity.iterate get_retrier body (S fuel) k =
  if negb again then (t ++ log, Raise e)
  else if (7 <=? k)%nat then (t ++ log, Raise e)
  else
    (t ++ log ++
       Sleep (tenacity.wait get_retrier (failed k e)) ::
       trace (tenacity.iterate get_retrier body fuel (S k)),
     outcome_of (tenacity.iterate get_retrier body fuel (S k))).
Proof.
  intros Hbody Hretry.
  cbn [tenacity.iterate]. rewrite Hbody. cbn [tenacity.future_of].
  cbn [tenacity.retry tenacity.stop tenacity.reraise get_retrier].
  fold (failed k e). rewrite Hretry.
  unfold tenacity.stop_after_attempt. cbn [tenacity.attempt_number failed].
  destruct again; cbn [negb];
    [destruct (7 <=? k)%nat;
     [|destruct (tenacity.iterate get_retrier body fuel (S k)) as [t' r]]|];
    unfold bind, raise, emit, trace, outcome_of; simpl; by rewrite ?app_nil_r.
Qed.

(** A turn of the loop begins with the events of its attempt. *)
Lemma iterate_starts_with_body (r : tenacity.Retrying) fuel k :
  ∃ rest, trace (tenacity.iterate r body (S fuel) k) = trace (body k) ++ rest.
Proof.
  cbn [tenacity.iterate].
  destruct (body k) as [t [a|e|]]; cbn [tenacity.future_of];
    [| |exists []; unfold trace; simpl; by rewrite app_nil_r].
  all: unfold bind at 1; cbn [trace fst];
    match goal with |- context [let '(_, _) := ?m in _] => destruct m as [t' res'] end;
    by exists t'.
Qed.

End RetryLoop.

Section Quiet.
Import VideoTranscriber.

Lemma quiet_ret {A} (a : A) : quiet (ret a).
Proof. split; [done|by exists a]. Qed.

Lemma quiet_print (l : line) : quiet (print l).
Proof. split; [done|by exists tt]. Qed.

Lemma quiet_bind {A B} (m : M A) (k : A → M B) :
  quiet m → (∀ a, quiet (k a)) → quiet (bind m k).
Proof.
  destruct m as [t r]. intros [Ht [a Ha]] Hk. simpl in Ht, Ha. subst r.
  specialize (Hk a). unfold bind. destruct (k a) as [t' r'].
  destruct Hk as [Ht' [b Hb]]. simpl in Ht', Hb. subst r'.
  split; [|by exists b]. unfold trace. simpl.
  by rewrite schedule_of_app, Ht, Ht'.
Qed.

Lemma quiet_print_count (mk_line : Z → line) (o : option Z) :
  quiet (print_count mk_line o).
Proof.
  destruct o as [n|]; simpl; [|apply quiet_ret].
  destruct (n =? 0); simpl; [apply quiet_ret|apply quiet_print].
Qed.

Lemma quiet_display_response_info (response : GenerateContentResponse) :
  quiet (_display_response_info response).
Proof.
  unfold _display_response_info.
  apply quiet_bind.
  - destruct (usage_metadata response) as [u|]; [|apply quiet_ret].
    repeat (apply quiet_bind; [apply quiet_print_count|intros _]).
    apply quiet_print_count.
  - intros _.
    destruct (candidates response) as [[|finish_reason rest]|];
      try apply quiet_print.
    apply quiet_bind.
    + destruct finish_reason as [[|name]|];
        first [apply quiet_ret | apply quiet_print].
    + intros _. destruct (response_text response) as [text|]; [|apply quiet_print].
      destruct (str.truthy text); [apply quiet_ret|apply quiet_print].
Qed.

End Quiet.

Section Invoker.
Import VideoTranscriber.

Variables (self : VideoTranscriber.t) (model : string) (contents : Part * string)
          (config : GenerateContentConfig).

Let remote (k : nat) := generate_content (client self) k model contents config.
Let body := attempt_body self model contents config.

Lemma attempt_body_failure k e :
  remote k = inl e →
  body k = ([GenerateContent k model contents config], Raise e).
Proof. unfold remote, body, attempt_body. by intros ->. Qed.

Lemma attempt_body_success k response :
  remote k = inr response →
  ∃ log, body k = (GenerateContent k model contents config :: log, Return response)
         ∧ schedule_of log = [].
Proof.
  unfold remote, body, attempt_body. intros ->.
  destruct (quiet_display_response_info response) as [Hq [[] Hr]].
  destruct (_display_response_info response) as [log r].
  simpl in Hq, Hr. subst r. exists log. split; [|done].
  unfold emit, bind, ret. simpl. by rewrite app_nil_r.
Qed.

Lemma backoff_schedule_step k n :
  backoff_schedule k (S (S n)) =
  Call k :: Wait (backoff_delay k) :: backoff_schedule (S k) (S n).
Proof. reflexivity. Qed.

(** The loop from attempt [k] on, with [m = 8 - k] attempts left. *)
Lemma retry_loop_from (m : nat) :
  ∀ k fuel, (k + m = 8)%nat → (1 ≤ k)%nat → (1 ≤ m)%nat → (m ≤ fuel)%nat →
    let run := tenacity.iterate get_retrier body fuel k in
    outcome_of run ≠ OutOfFuel ∧
    (∃ n, (1 ≤ n ≤ m)%nat ∧ schedule_of (trace run) = backoff_schedule k n) ∧
    (∀ e7,
        (∀ j, (k ≤ j ≤ 7)%nat → ∃ e, remote j = inl e ∧ transient e) →
        remote 7%nat = inl e7 →
        outcome_of run = Raise e7 ∧
        schedule_of (trace run) = backoff_schedule k m).
Proof.
  induction m as [|m IH]; intros k fuel Hkm Hk Hm Hfuel; [lia|].
  destruct fuel as [|fuel]; [lia|]. intros run. subst run.
  destruct (remote k) as [e|response] eqn:Hremote.
  - (* the attempt fails *)
    pose proof (attempt_body_failure k e Hremote) as Hbody.
    destruct (should_retry_request_runs (failed k e)) as (log & again & Hretry & Hlog).
    rewrite (iterate_failure body fuel k _ e log again Hbody Hretry).
    assert (again = true ↔ transient e) as Hagain.
    { rewrite <- (should_retry_request_true_iff k). unfold outcome_of.
      rewrite Hretry. simpl. split; congruence. }
    destruct again; cbn [negb].
    + destruct (Nat.leb_spec 7 k) as [Hstop|Hgo].
      * (* attempt 7: the policy stops and the error goes out as it is *)
        assert (k = 7%nat) as -> by lia. assert (m = 0%nat) as -> by lia.
        unfold outcome_of, trace. simpl. rewrite Hlog.
        split; [done|]. split; [exists 1%nat; split; [lia|done]|].
        intros e7 _ H7. split; [congruence|done].
      * (* sleep, then the next attempt *)
        destruct (IH (S k) fuel) as (Hout & (n & Hn & Hsched) & Hall); try lia.
        unfold outcome_of, trace in *. cbn [fst snd].
        rewrite schedule_of_app, schedule_of_app, Hlog. cbn [app].
        change (schedule_of (Sleep ?w :: ?t')) with (Wait w :: schedule_of t').
        unfold failed. rewrite (wait_is_backoff_delay k) by lia.
        change (schedule_of [GenerateContent k model contents config]) with [Call k].
        cbn [app].
        split; [done|]. split.
        -- exists (S n). split; [lia|]. rewrite Hsched.
           destruct n as [|n]; [lia|]. by rewrite backoff_schedule_step.
        -- intros e7 Hfail H7.
           destruct (Hall e7) as [Hraise Hfull]; [intros j Hj; apply Hfail; lia|done|].
           split; [done|]. rewrite Hfull.
           destruct m as [|m]; [lia|]. by rewrite backoff_schedule_step.
    + (* not retried *)
      unfold outcome_of, trace. simpl. rewrite Hlog.
      split; [done|]. split; [exists 1%nat; split; [lia|done]|].
      intros e7 Hfail _. destruct (Hfail k) as (e' & He' & Htransient); [lia|].
      rewrite Hremote in He'. injection He' as <-.
      apply Hagain in Htransient. discriminate.
  - (* the attempt succeeds *)
    destruct (attempt_body_success k response Hremote) as (log & Hbody & Hlog).
    rewrite (iterate_success body fuel k _ response Hbody).
    unfold outcome_of, trace. simpl. rewrite Hlog.
    split; [done|]. split; [exists 1%nat; split; [lia|done]|].
    intros e7 Hfail _. destruct (Hfail k) as (e' & He' & _); [lia|].
    rewrite Hremote in He'. discriminate.
Qed.

End Invoker.

Section RetryClaims.
Import VideoTranscriber.

(** C3.  After a failed attempt the predicate asks for a retry exactly
    when the error is a client-level error with status 429, or with
    status 400 and a message holding the phrase [" try again "].  The
    loop of [get_retrier] acts on that answer.  For every other error it
    raises that same error at once: no sleep and no further call follow
    the failed attempt.  For such an error on one of the attempts 1 to 6
    it sleeps for the backoff delay of that attempt and goes on with the
    next attempt: the events of the next attempt follow the sleep, and the
    loop ends as the loop from the next attempt on ends. *)
Theorem retry_iff_transient_client_error (attempt : nat) (e : exn) :
  (outcome_of (_should_retry_request (failed attempt e)) = Return true ↔ transient e) ∧
  (¬ transient e →
   ∀ (A : Type) (body : nat → M A) (fuel : nat) (t : list event),
     body attempt = (t, Raise e) →
     let run := tenacity.iterate get_retrier body (S fuel) attempt in
     outcome_of run = Raise e ∧ schedule_of (trace run) = schedule_of t) ∧
  (transient e → (1 ≤ attempt < 7)%nat →
   ∀ (A : Type) (body : nat → M A) (fuel : nat) (t : list event),
     body attempt = (t, Raise e) →
     let run := tenacity.iterate get_retrier body (S (S fuel)) attempt in
     let next := tenacity.iterate get_retrier body (S fuel) (S attempt) in
     outcome_of run = outcome_of next ∧
     schedule_of (trace run) =
       schedule_of t ++ Wait (backoff_delay attempt) :: schedule_of (trace next) ∧
     ∃ rest, trace next = trace (body (S attempt)) ++ rest).
Proof.
  split; [apply should_retry_request_true_iff|]. split.
  - intros Hfatal A body fuel t Hbody run. subst run.
    destruct (should_retry_request_runs (failed attempt e))
      as (log & again & Hretry & Hlog).
    assert (again = false) as ->.
    { apply (should_retry_request_false_iff attempt) in Hfatal.
      unfold outcome_of in Hfatal. rewrite Hretry in Hfatal. simpl in Hfatal.
      congruence. }
    rewrite (iterate_failure body fuel attempt t e log false Hbody Hretry).
    unfold outcome_of, trace. simpl.
    by rewrite schedule_of_app, Hlog, app_nil_r.
  - intros Htransient Hattempt A body fuel t Hbody run next.
    destruct (should_retry_request_runs (failed attempt e))
      as (log & again & Hretry & Hlog).
    assert (again = true) as ->.
    { apply (should_retry_request_true_iff attempt) in Htransient.
      unfold outcome_of in Htransient. rewrite Hretry in Htransient.
      simpl in Htransient. congruence. }
    subst run.
    rewrite (iterate_failure body (S fuel) attempt t e log true Hbody Hretry).
    cbn [negb]. destruct (Nat.leb_spec 7 attempt) as [|_]; [lia|].
    fold next. unfold failed. rewrite (wait_is_backoff_delay attempt) by lia.
    split; [done|]. split; [|apply iterate_starts_with_body].
    cbn [trace fst]. rewrite !schedule_of_app, Hlog. done.
Qed.

(** C4.  With enough fuel for seven turns the loop always ends.  It makes
    between one and seven calls, one after the other, and the wait that
    precedes the [k]-th retry is [BASE_DELAY + (k - 1) * INCREMENT]
    seconds.  When all seven calls fail with errors the policy retries,
    all seven are made and the error of the seventh call is raised as it
    is, not wrapped. *)
Theorem retrier_seven_attempts_linear_backoff
    (self : VideoTranscriber.t) (model : string) (contents : Part * string)
    (config : GenerateContentConfig) (fuel : nat) :
  (7 ≤ fuel)%nat →
  let run := tenacity.for_attempt_in get_retrier
               (attempt_body self model contents config) fuel in
  outcome_of run ≠ OutOfFuel ∧
  (∃ n, (1 ≤ n ≤ 7)%nat ∧ schedule_of (trace run) = backoff_schedule 1 n) ∧
  (∀ e7,
      (∀ j, (1 ≤ j ≤ 7)%nat →
            ∃ e, generate_content (client self) j model contents config = inl e
                 ∧ transient e) →
      generate_content (client self) 7 model contents config = inl e7 →
      outcome_of run = Raise e7 ∧
      schedule_of (trace run) = backoff_schedule 1 7).
Proof.
  intros Hfuel. unfold tenacity.for_attempt_in.
  apply (retry_loop_from self model contents config 7 1 fuel); lia.
Qed.

End RetryClaims.

(** The schedule of seven failed calls, spelled out. *)
Example backoff_schedule_seven :
backoff_schedule 1 7 =
[Call 1; Wait 10; Call 2; Wait 11; Call 3; Wait 12; Call 4; Wait 13;
 Call 5; Wait 14; Call 6; Wait 15; Call 7].
Proof. reflexivity. Qed.

Lemma retry_iff_transient_client_error_witness :
(let run := tenacity.iterate VideoTranscriber.get_retrier
              (VideoTranscriber.attempt_body SampleClients.studio_server_fault
                 Config.DEFAULT_MODEL (SampleClients.sample_part, "prompt")
                 SampleClients.sample_config) 7 1 in
 outcome_of run = Raise SampleClients.server_fault ∧ attempts_of (trace run) = [1%nat]) ∧
(let run := tenacity.iterate VideoTranscriber.get_retrier
              (VideoTranscriber.attempt_body SampleClients.studio_flaky
                 Config.DEFAULT_MODEL (SampleClients.sample_part, "prompt")
                 SampleClients.sample_config) 7 3 in
 outcome_of run = Return SampleClients.ok_response ∧
 schedule_of (trace run) = [Call 3; Wait 12; Call 4]).
Proof.
split.
- destruct (retry_iff_transient_client_error 1 SampleClients.server_fault)
    as (_ & Hfatal & _).
  destruct (Hfatal
              ltac:(by intros (code & message & Heq & _))
              GenerateContentResponse
              (VideoTranscriber.attempt_body SampleClients.studio_server_fault
                 Config.DEFAULT_MODEL (SampleClients.sample_part, "prompt")
                 SampleClients.sample_config)
              6%nat _ eq_refl) as [Hraise _].
  split; [exact Hraise|reflexivity].
- destruct (retry_iff_transient_client_error 3 (SampleClients.quota_error 3))
    as (_ & _ & Hretried).
  destruct (Hretried
              ltac:(by exists 429, (Some "Quota exceeded"); split; [|left])
              ltac:(lia)
              GenerateContentResponse
              (VideoTranscriber.attempt_body SampleClients.studio_flaky
                 Config.DEFAULT_MODEL (SampleClients.sample_part, "prompt")
                 SampleClients.sample_config)
              5%nat _ eq_refl) as (Hends & Hschedule & _).
  split; [exact (eq_trans Hends eq_refl)|exact (eq_trans Hschedule eq_refl)].
Defined.

Lemma retrier_seven_attempts_linear_backoff_witness :
let run := tenacity.for_attempt_in VideoTranscriber.get_retrier
             (VideoTranscriber.attempt_body SampleClients.studio_rate_limited
                Config.DEFAULT_MODEL (SampleClients.sample_part, "prompt")
                SampleClients.sample_config) 7 in
outcome_of run = Raise (SampleClients.quota_error 7) ∧
schedule_of (trace run) = backoff_schedule 1 7.
Proof.
apply (retrier_seven_attempts_linear_backoff SampleClients.studio_rate_limited
         Config.DEFAULT_MODEL (SampleClients.sample_part, "prompt")
         SampleClients.sample_config 7).
- lia.
- intros j _. exists (SampleClients.quota_error j). split; [reflexivity|].
  exists 429, (Some (if (j =? 7)%nat then "Quota exceeded (seventh call)"
                     else "Quota exceeded")).
  split; [reflexivity|by left].
- reflexivity.
Defined.

(* ===================================================================== *)
(** * The request builder *)
(* ===================================================================== *)

Section RequestBuilder.
Import VideoTranscriber.

Implicit Types (self : VideoTranscriber.t) (video_uri : string)
               (so eo : option timedelta.t) (fps : option float).

Lemma get_video_part_refused self video_uri so eo fps :
  vertexai (client self) = false →
  str.startswith (rewrite_video_uri self video_uri) YOUTUBE_WATCH_PREFIX = false →
  get_video_part self video_uri so eo fps = ([Print OnlyYouTubeSupported], Return None).
Proof. intros Hstudio Hnot. unfold get_video_part. by rewrite Hstudio, Hnot. Qed.

Lemma get_video_part_accepted self video_uri so eo fps :
  vertexai (client self) = true ∨
  str.startswith (rewrite_video_uri self video_uri) YOUTUBE_WATCH_PREFIX = true →
  ∃ part, get_video_part self video_uri so eo fps = ([], Return (Some part)) ∧
          file_uri (file_data part) = rewrite_video_uri self video_uri.
Proof.
  intros H. unfold get_video_part.
  destruct H as [-> | ->]; rewrite ?andb_false_r; simpl; eauto.
Qed.

(** C1, as the code has it.  On the lightweight backend the builder
    returns no video reference exactly when the URI, after the
    Cloud Storage rewrite, does not begin with the YouTube watch prefix.
    When it refuses and the sampling rate passed validation,
    [transcribe_video] prints the refusal and returns the empty
    aggregate: nothing is raised and the remote model is never called. *)
Theorem get_video_part_refuses_unless_youtube self video_uri so eo fps :
  vertexai (client self) = false →
  (outcome_of (get_video_part self video_uri so eo fps) = Return None ↔
   str.startswith (rewrite_video_uri self video_uri) YOUTUBE_WATCH_PREFIX = false) ∧
  (str.startswith (rewrite_video_uri self video_uri) YOUTUBE_WATCH_PREFIX = false →
   fps_rejected fps = false →
   ∀ fuel model custom_prompt,
     transcribe_video self fuel video_uri so eo fps model custom_prompt =
     ([Print OnlyYouTubeSupported], Return VideoTranscription.default)).
Proof.
  intros Hstudio. split; [split|].
  - destruct (str.startswith _ YOUTUBE_WATCH_PREFIX) eqn:Hyt; [|done].
    destruct (get_video_part_accepted self video_uri so eo fps) as (part & -> & _);
      [by right|discriminate].
  - intros Hnot. by rewrite get_video_part_refused.
  - intros Hnot Hfps fuel model custom_prompt.
    unfold transcribe_video. rewrite Hfps.
    by rewrite get_video_part_refused.
Qed.

(** On the lightweight backend a Cloud Storage URI is rewritten to an
    HTTPS object URL, which is then refused like any other URL that is
    not a YouTube watch URL. *)
Lemma cloud_storage_uri_refused self object so eo fps :
  vertexai (client self) = false →
  rewrite_video_uri self ("gs://" +:+ object) =
    "https://storage.googleapis.com/" +:+ object ∧
  outcome_of (get_video_part self ("gs://" +:+ object) so eo fps) = Return None.
Proof.
  intros Hstudio.
  assert (rewrite_video_uri self ("gs://" +:+ object) =
          "https://storage.googleapis.com/" +:+ object) as Hrw.
  { unfold rewrite_video_uri. rewrite Hstudio, startswith_app. simpl.
    unfold str.removeprefix. by rewrite startswith_app. }
  split; [done|].
  rewrite get_video_part_refused; [done..|]. by rewrite Hrw.
Qed.

(** The sampling-rate check: what it rejects, and that a rejection is
    raised before anything else happens. *)
Lemma fps_rejected_iff (f : float) :
  fps_rejected (Some f) = true ↔
  float_truthy f = true ∧
  (PrimFloat.ltb f Config.MIN_FPS = true ∨ PrimFloat.ltb Config.MAX_FPS f = true).
Proof.
  unfold fps_rejected. rewrite andb_true_iff, orb_true_iff. tauto.
Qed.

Lemma transcribe_video_rejects_before_any_call
    self fuel video_uri so eo fps model custom_prompt :
  fps_rejected fps = true →
  transcribe_video self fuel video_uri so eo fps model custom_prompt =
  ([], Raise (ValueError FPS_MESSAGE)).
Proof. intros H. unfold transcribe_video. by rewrite H. Qed.

Lemma no_sampling_rate_is_accepted : fps_rejected None = false.
Proof. reflexivity. Qed.

(** C2, at the input where the code departs from it.  The rate 0.0 is
    below [MIN_FPS], yet the check lets it through, because [fps and ...]
    treats 0.0 like an absent rate: the request is built and sent. *)
Theorem zero_fps_passes_validation :
  PrimFloat.ltb 0%float Config.MIN_FPS = true ∧
  fps_rejected (Some 0%float) = false ∧
  let run := transcribe_video SampleClients.studio_ok 7 SampleClients.youtube_url
               None None (Some 0%float) None None in
  outcome_of run = Return (VideoTranscription.update_counts Sample.wrong_counts) ∧
  attempts_of (trace run) = [1%nat].
Proof. vm_compute. by repeat split. Qed.

(** Timecode format selection on a known or unknown duration: the
    extended format exactly when a duration is given and is at least one
    hour, the default format in every other case. *)
Lemma get_timecode_format_extended_iff (video_duration : option timedelta.t) :
  (get_timecode_format video_duration = Config.EXTENDED_TIMECODE_FORMAT ↔
   ∃ d, video_duration = Some d ∧
        timedelta.microseconds (timedelta.of_hours 1) ≤ timedelta.microseconds d) ∧
  (get_timecode_format video_duration = Config.DEFAULT_TIMECODE_FORMAT ↔
   ¬ ∃ d, video_duration = Some d ∧
          timedelta.microseconds (timedelta.of_hours 1) ≤ timedelta.microseconds d).
Proof.
  unfold get_timecode_format.
  destruct video_duration as [[us]|]; simpl.
  - unfold timedelta.truthy, timedelta.ge. simpl.
    change (1 * 3600 * 1000000) with 3600000000.
    destruct (Z.eqb_spec us 0) as [->|Hnz]; simpl.
    + split; (split; [try discriminate|]).
      * intros (d & [= <-] & Hd). simpl in Hd. lia.
      * intros _ (d & [= <-] & Hd). simpl in Hd. lia.
      * done.
    + destruct (Z.leb_spec 3600000000 us) as [Hge|Hlt]; simpl.
      * split; (split; [try discriminate|]).
        -- intros _. eexists. split; [done|]. simpl. lia.
        -- done.
        -- intros Hnot. destruct Hnot. eexists. split; [done|]. simpl. lia.
      * split; (split; [try discriminate|]).
        -- intros (d & [= <-] & Hd). simpl in Hd. lia.
        -- intros _ (d & [= <-] & Hd). simpl in Hd. lia.
        -- done.
  - split; (split; [try discriminate|]).
    + by intros (d & ? & _).
    + by intros _ (d & ? & _).
    + done.
Qed.

Lemma get_timecode_format_default_or_extended (video_duration : option timedelta.t) :
  get_timecode_format video_duration = Config.DEFAULT_TIMECODE_FORMAT ∨
  get_timecode_format video_duration = Config.EXTENDED_TIMECODE_FORMAT.
Proof.
  unfold get_timecode_format.
  destruct video_duration as [d|]; [|by left].
  destruct (timedelta.truthy d && timedelta.ge d (timedelta.of_hours 1)); auto.
Qed.

(** With two non-zero offsets the duration handed on is their
    difference. *)
Lemma window_duration_nonzero (s e : timedelta.t) :
  timedelta.truthy s = true → timedelta.truthy e = true →
  window_duration (Some s) (Some e) =
  match timedelta.sub e s with inr d => ret (Some d) | inl err => raise err end.
Proof. intros Hs He. unfold window_duration. by rewrite Hs, He. Qed.

(** C7, at the input where the code departs from it.  A window that
    starts at offset zero and ends at two hours lasts two hours, for
    which the extended format is the right one; but [start_offset and
    end_offset] takes the zero start offset for a missing one, the
    duration is handed on as unknown, and the prompt asks for the
    default format. *)
Theorem zero_start_offset_selects_default_format :
  let start_offset := timedelta.of_minutes 0 in
  let end_offset := timedelta.of_hours 2 in
  timedelta.sub end_offset start_offset = inr (timedelta.of_hours 2) ∧
  get_timecode_format (Some (timedelta.of_hours 2)) = Config.EXTENDED_TIMECODE_FORMAT ∧
  window_duration (Some start_offset) (Some end_offset) = ret None ∧
  select_prompt (Some start_offset) (Some end_offset) None =
    ret (get_transcription_prompt Config.DEFAULT_TIMECODE_FORMAT).
Proof. vm_compute. by repeat split. Qed.

End RequestBuilder.

(** C1 as the spec words it fails on a direct HTTPS URL: the URL is
  already HTTPS, so the spec's condition for refusing does not hold, yet
  the builder refuses it. *)
Lemma direct_https_url_is_refused :
¬ (outcome_of (VideoTranscriber.get_video_part SampleClients.studio_ok
                 SampleClients.direct_url None None None) = Return None ↔
   str.startswith (VideoTranscriber.rewrite_video_uri SampleClients.studio_ok
                     SampleClients.direct_url)
                  VideoTranscriber.YOUTUBE_WATCH_PREFIX = false ∧
   str.startswith (VideoTranscriber.rewrite_video_uri SampleClients.studio_ok
                     SampleClients.direct_url) "https://" = false).
Proof. intros [H _]. by destruct H. Qed.

Lemma get_video_part_refuses_unless_youtube_witness :
VideoTranscriber.transcribe_video SampleClients.studio_ok 7 SampleClients.direct_url
  None None (Some 1.0%float) None None =
([Print OnlyYouTubeSupported], Return VideoTranscription.default).
Proof.
apply (get_video_part_refuses_unless_youtube SampleClients.studio_ok
         SampleClients.direct_url None None (Some 1.0%float)); reflexivity.
Defined.

(* ===================================================================== *)
(** * Scenarios *)
(* ===================================================================== *)

(** Three rate-limited calls and a fourth that succeeds: the result of the
    fourth call is returned after waits of 10, 11 and 12 seconds. *)
Example three_rate_limits_then_success :
  let run := VideoTranscriber.transcribe_video SampleClients.studio_flaky 7
               SampleClients.youtube_url None None None None None in
  outcome_of run = Return (VideoTranscription.update_counts Sample.wrong_counts) ∧
  schedule_of (trace run) =
    [Call 1; Wait 10; Call 2; Wait 11; Call 3; Wait 12; Call 4].
Proof. vm_compute. by split. Qed.

(** A YouTube identifier resolves to its watch URL, and the counts of the
    answer are those of the lists that came back. *)
Example youtube_identifier_end_to_end :
  let run := VideoTranscriber.transcribe_youtube_video SampleClients.studio_ok 7
               "abc123" None None None None None in
  omap (λ ev, match ev with
              | GenerateContent _ _ (part, _) _ => Some (file_uri (file_data part))
              | _ => None
              end) (trace run) = ["https://www.youtube.com/watch?v=abc123"] ∧
  ∃ r, outcome_of run = Return r ∧
       VideoTranscription.total_segments r = 3 ∧
       VideoTranscription.total_speakers r = 1.
Proof. vm_compute. split; [done|]. eexists. by repeat split. Qed.

(** A rate of 50 frames per second is rejected before anything is sent. *)
Example fps_fifty_is_rejected :
  VideoTranscriber.transcribe_video SampleClients.studio_ok 7 SampleClients.youtube_url
    None None (Some 50.0%float) None None =
  ([], Raise (ValueError "FPS must be between 0.1 and 24.0")).
Proof. reflexivity. Qed.

(** A window from one second to two hours and one second has two non-zero
    offsets and selects the extended format. *)
Example two_hour_window_selects_extended_format :
  VideoTranscriber.select_prompt (Some (timedelta.of_seconds 1))
    (Some (timedelta.of_seconds 7201)) None =
  ret (VideoTranscriber.get_transcription_prompt "H:MM:SS").
Proof. reflexivity. Qed.

(** [total_seconds] on whole, fractional and negative durations, and on
    [timedelta.max], whose quotient is rounded up to the next double. *)
#[warnings="-inexact-float"] Example total_seconds_samples :
  timedelta.total_seconds (timedelta.of_seconds 90) = 90.0%float ∧
  timedelta.total_seconds (timedelta.of_hours 2) = 7200.0%float ∧
  timedelta.total_seconds (timedelta.mk 1500000) = 1.5%float ∧
  timedelta.total_seconds (timedelta.mk 100000) = 0.1%float ∧
  timedelta.total_seconds (timedelta.mk 60000001) = 60.000001%float ∧
  timedelta.total_seconds (timedelta.mk (-500000)) = (-0.5)%float ∧
  timedelta.total_seconds (timedelta.mk timedelta.max_us) = 86400000000000.0%float.
Proof. vm_compute. by repeat split. Qed.

(** The offsets of a request are the texts ["90.0s"] and ["7200.0s"]; a
    zero offset is left out. *)
Example offsets_are_sent_as_seconds :
  (∃ part,
     VideoTranscriber.get_video_part SampleClients.studio_ok SampleClients.youtube_url
       (Some (timedelta.of_seconds 90)) (Some (timedelta.of_hours 2)) None
     = ret (Some part) ∧
     start_offset (video_metadata part) = Some (SecondsText 90.0%float) ∧
     end_offset (video_metadata part) = Some (SecondsText 7200.0%float)) ∧
  (∃ part,
     VideoTranscriber.get_video_part SampleClients.studio_ok SampleClients.youtube_url
       (Some (timedelta.of_seconds 0)) (Some (timedelta.of_hours 2)) None
     = ret (Some part) ∧
     start_offset (video_metadata part) = None).
Proof. split; eexists; (split; [reflexivity|]); vm_compute; by repeat split. Qed.

(** [strip] removes white space beyond ASCII from both ends, here a
    no-break space (C2 A0), an ideographic space (E3 80 80) and a next
    line (C2 85), and keeps the white space inside and the letter [C3 A0],
    which shares its last byte with the no-break space. *)
Example strip_removes_unicode_white_space :
  let bytes := foldr (λ n s, String (ascii_of_nat n) s) "" in
  str.strip (bytes [194; 160; 32]%nat +:+ "a b" +:+ bytes [10; 227; 128; 128; 194; 133]%nat)
  = "a b" ∧
  str.strip (bytes [32; 195; 160; 9]%nat) = bytes [195; 160]%nat ∧
  str.strip (bytes [226; 128; 175; 226; 129; 159; 225; 154; 128]%nat) = "".
Proof. vm_compute. by repeat split. Qed.

(* ===================================================================== *)
(** * More on the retrying invoker *)
(* ===================================================================== *)

Section Monad.

Lemma trace_bind {A B} (m : M A) (k : A → M B) :
  trace (bind m k) =
  trace m ++ match outcome_of m with Return a => trace (k a) | _ => [] end.
Proof.
  destruct m as [t [a| e|]]; unfold bind, trace, outcome_of; simpl;
    [by destruct (k a)|by rewrite app_nil_r..].
Qed.

Lemma outcome_bind {A B} (m : M A) (k : A → M B) :
  outcome_of (bind m k) =
  match outcome_of m with
  | Return a => outcome_of (k a)
  | Raise e => Raise e
  | OutOfFuel => OutOfFuel
  end.
Proof.
  destruct m as [t [a| e|]]; unfold bind, trace, outcome_of; simpl; [|done..].
  by destruct (k a).
Qed.

Lemma attempts_of_schedule (tr : list event) :
  attempts_of tr = calls_of (schedule_of tr).
Proof. induction tr as [|[] tr IH]; simpl; by rewrite ?IH. Qed.

Lemma sleeps_of_schedule (tr : list event) :
  sleeps_of tr = waits_of (schedule_of tr).
Proof. induction tr as [|[] tr IH]; simpl; by rewrite ?IH. Qed.

Lemma requests_of_app (t1 t2 : list event) :
  requests_of (t1 ++ t2) = requests_of t1 ++ requests_of t2.
Proof. apply omap_app. Qed.

Lemma requests_of_quiet (tr : list event) :
  schedule_of tr = [] → requests_of tr = [].
Proof. induction tr as [|[] tr IH]; simpl; intros H; by try apply IH. Qed.

Lemma calls_of_backoff_schedule (n k : nat) :
  calls_of (backoff_schedule k n) = seq k n.
Proof.
  revert k. induction n as [|n IH]; intros k; [done|].
  destruct n as [|n]; [done|].
  change (calls_of (backoff_schedule k (S (S n))))
    with (k :: calls_of (backoff_schedule (S k) (S n))).
  by rewrite IH.
Qed.

Lemma waits_of_backoff_schedule (n k : nat) :
  waits_of (backoff_schedule k (S n)) = backoff_delay <$> seq k n.
Proof.
  revert k. induction n as [|n IH]; intros k; [done|].
  change (waits_of (backoff_schedule k (S (S n))))
    with (backoff_delay k :: waits_of (backoff_schedule (S k) (S n))).
  by rewrite IH.
Qed.

End Monad.

Section InvokerMore.
Import VideoTranscriber.

Variables (self : VideoTranscriber.t) (model : string) (contents : Part * string)
          (config : GenerateContentConfig).

Let remote (k : nat) := generate_content (client self) k model contents config.
Let body := attempt_body self model contents config.

(** The loop from attempt [s]: [d] transient failures, then an attempt that
  settles the matter. *)
Lemma retry_loop_settles (d : nat) :
  ∀ s fuel,
    (1 ≤ s)%nat → (s + d ≤ 7)%nat → (S d ≤ fuel)%nat →
    (∀ j, (s ≤ j < s + d)%nat → ∃ e, remote j = inl e ∧ transient e) →
    (∀ e, remote (s + d)%nat = inl e → ¬ transient e) →
    let run := tenacity.iterate get_retrier body fuel s in
    outcome_of run =
      match remote (s + d)%nat with inr r => Return r | inl e => Raise e end ∧
    schedule_of (trace run) = backoff_schedule s (S d).
Proof.
  induction d as [|d IH]; intros s fuel Hs Hsd Hfuel Hfail Hsettled run; subst run;
    (destruct fuel as [|fuel]; [lia|]).
  - rewrite Nat.add_0_r in *.
    destruct (remote s) as [e|response] eqn:Hremote.
    + pose proof (attempt_body_failure self model contents config s e Hremote) as Hbody.
      destruct (should_retry_request_runs (failed s e)) as (log & again & Hretry & Hlog).
      assert (again = false) as ->.
      { pose proof (Hsettled e eq_refl) as Hfatal.
        apply (should_retry_request_false_iff s) in Hfatal.
        unfold outcome_of in Hfatal. rewrite Hretry in Hfatal. simpl in Hfatal.
        congruence. }
      fold body in Hbody.
      rewrite (iterate_failure body fuel s _ e log false Hbody Hretry).
      unfold outcome_of, trace. simpl. by rewrite Hlog.
    + destruct (attempt_body_success self model contents config s response Hremote)
        as (log & Hbody & Hlog).
      fold body in Hbody.
      rewrite (iterate_success body fuel s _ response Hbody).
      unfold outcome_of, trace. simpl. by rewrite Hlog.
  - destruct (Hfail s) as (e & Hremote & Htransient); [lia|].
    pose proof (attempt_body_failure self model contents config s e Hremote) as Hbody.
    destruct (should_retry_request_runs (failed s e)) as (log & again & Hretry & Hlog).
    assert (again = true) as ->.
    { apply (should_retry_request_true_iff s) in Htransient.
      unfold outcome_of in Htransient. rewrite Hretry in Htransient. simpl in Htransient.
      congruence. }
    fold body in Hbody.
    rewrite (iterate_failure body fuel s _ e log true Hbody Hretry).
    cbn [negb]. destruct (Nat.leb_spec 7 s) as [?|_]; [lia|].
    destruct (IH (S s) fuel) as [Hout Hsched]; try lia.
    { intros j Hj. apply Hfail. lia. }
    { intros e'. replace (S s + d)%nat with (s + S d)%nat by lia. apply Hsettled. }
    replace (S s + d)%nat with (s + S d)%nat in Hout by lia.
    unfold outcome_of, trace in *. cbn [fst snd].
    split; [done|].
    rewrite schedule_of_app, schedule_of_app, Hlog. cbn [app].
    change (schedule_of (Sleep ?w :: ?t')) with (Wait w :: schedule_of t').
    unfold failed. rewrite (wait_is_backoff_delay s) by lia.
    change (schedule_of [GenerateContent s model contents config]) with [Call s].
    cbn [app]. by rewrite Hsched.
Qed.

(** Every request of the loop is the one the loop was started with. *)
Lemma retry_loop_requests (fuel : nat) :
  ∀ k, Forall (λ r, r = (model, contents, config))
         (requests_of (trace (tenacity.iterate get_retrier body fuel k))).
Proof.
  induction fuel as [|fuel IH]; intros k; [by constructor|].
  destruct (remote k) as [e|response] eqn:Hremote.
  - pose proof (attempt_body_failure self model contents config k e Hremote) as Hbody.
    destruct (should_retry_request_runs (failed k e)) as (log & again & Hretry & Hlog).
    fold body in Hbody.
    rewrite (iterate_failure body fuel k _ e log again Hbody Hretry).
    apply requests_of_quiet in Hlog.
    destruct again; cbn [negb]; [destruct (7 <=? k)%nat|];
      unfold trace; cbn [fst]; rewrite ?requests_of_app, ?Hlog; simpl;
      try (by repeat constructor).
    constructor; [done|]. apply IH.
  - destruct (attempt_body_success self model contents config k response Hremote)
      as (log & Hbody & Hlog).
    fold body in Hbody.
    rewrite (iterate_success body fuel k _ response Hbody).
    apply requests_of_quiet in Hlog.
    unfold trace. simpl. rewrite Hlog. by repeat constructor.
Qed.

End InvokerMore.

(* ===================================================================== *)
(** * The whole of [transcribe_video] *)
(* ===================================================================== *)

Section TranscribeVideo.
Import VideoTranscriber.

Implicit Types (self : VideoTranscriber.t) (video_uri : string)
               (so eo : option timedelta.t) (rate : option float)
               (model custom_prompt : option string).

Lemma bind_ret_l {A B} (a : A) (k : A → M B) : bind ([], Return a) k = k a.
Proof. unfold bind. by destruct (k a). Qed.

Lemma quiet_parse_response (response : GenerateContentResponse) :
  quiet (_parse_response response).
Proof.
  unfold _parse_response.
  destruct (parsed response); try apply quiet_ret;
    (apply quiet_bind; [apply quiet_print|intros _; apply quiet_ret]).
Qed.

Lemma window_duration_cases so eo :
  (∃ d, window_duration so eo = ([], Return d)) ∨
  window_duration so eo = ([], Raise OverflowError).
Proof.
  unfold window_duration.
  destruct so as [s|], eo as [e|]; try (left; by eexists).
  destruct (timedelta.truthy s && timedelta.truthy e); [|left; by eexists].
  unfold timedelta.sub. destruct (_ && _); [left; by eexists|by right].
Qed.

Lemma select_prompt_cases so eo custom_prompt :
  (∃ prompt, select_prompt so eo custom_prompt = ([], Return prompt)) ∨
  select_prompt so eo custom_prompt = ([], Raise OverflowError).
Proof.
  unfold select_prompt.
  destruct custom_prompt as [p|]; [destruct (str.truthy p); [left; by eexists|]|];
    (destruct (window_duration_cases so eo) as [[d ->]| ->];
     [left; rewrite bind_ret_l; by eexists|by right]).
Qed.

(** An offset is sent exactly when it is given and not zero, and then as
  the text of its seconds. *)
Lemma offset_sent (o : option timedelta.t) (x : OffsetText) :
  (if offset_truthy o then offset_text <$> o else None) = Some x →
  ∃ d, o = Some d ∧ timedelta.microseconds d ≠ 0 ∧
       x = SecondsText (timedelta.total_seconds d).
Proof.
  destruct o as [d|]; [|done]. cbn [offset_truthy fmap option_fmap option_map].
  unfold timedelta.truthy.
  destruct (Z.eqb_spec (timedelta.microseconds d) 0) as [|Hnz]; [done|].
  cbn [negb]. intros [= <-]. by exists d.
Qed.

Lemma offset_withheld (o : option timedelta.t) :
  o = None ∨ o = Some (timedelta.mk 0) →
  (if offset_truthy o then offset_text <$> o else None) = None.
Proof. by intros [-> | ->]. Qed.

(** What the builder hands over when it does not refuse. *)
Lemma get_video_part_cases self video_uri so eo rate :
  (vertexai (client self) = false ∧
   str.startswith (rewrite_video_uri self video_uri) YOUTUBE_WATCH_PREFIX = false ∧
   get_video_part self video_uri so eo rate = ([Print OnlyYouTubeSupported], Return None)) ∨
  (∃ part,
      get_video_part self video_uri so eo rate = ([], Return (Some part)) ∧
      file_uri (file_data part) = rewrite_video_uri self video_uri ∧
      mime_type (file_data part) = "video/*" ∧
      start_offset (video_metadata part)
        = (if offset_truthy so then offset_text <$> so else None) ∧
      end_offset (video_metadata part)
        = (if offset_truthy eo then offset_text <$> eo else None) ∧
      fps (video_metadata part) = (if fps_truthy rate then rate else None)).
Proof.
  unfold get_video_part.
  destruct (vertexai (client self)) eqn:Hbackend; simpl.
  - right. eexists. by repeat split.
  - destruct (str.startswith _ YOUTUBE_WATCH_PREFIX) eqn:Hyt; simpl.
    + right. eexists. by repeat split.
    + by left.
Qed.

(** Past validation, the builder and the prompt, [transcribe_video] is the
  banner, the retry loop and the interpreter, in that order. *)
Lemma transcribe_video_unfold self fuel video_uri so eo rate model custom_prompt
    part prompt :
  fps_rejected rate = false →
  get_video_part self video_uri so eo rate = ([], Return (Some part)) →
  select_prompt so eo custom_prompt = ([], Return prompt) →
  transcribe_video self fuel video_uri so eo rate model custom_prompt =
  (print (ModelBanner (model_or_default model)) ;;
   response <- tenacity.for_attempt_in get_retrier
                 (attempt_body self (model_or_default model) (part, str.strip prompt)
                    (get_generate_content_config (Some (model_or_default model)) None))
                 fuel ;;
   _parse_response response)%M.
Proof.
  intros Hfps Hpart Hprompt. unfold transcribe_video.
  by rewrite Hfps, Hpart, bind_ret_l, Hprompt, bind_ret_l.
Qed.

(** The four ways [transcribe_video] can go. *)
Lemma transcribe_video_cases self fuel video_uri so eo rate model custom_prompt :
  let run := transcribe_video self fuel video_uri so eo rate model custom_prompt in
  run = ([], Raise (ValueError FPS_MESSAGE)) ∨
  run = ([Print OnlyYouTubeSupported], Return VideoTranscription.default) ∨
  run = ([], Raise OverflowError) ∨
  (∃ part prompt,
      fps_rejected rate = false ∧
      get_video_part self video_uri so eo rate = ([], Return (Some part)) ∧
      select_prompt so eo custom_prompt = ([], Return prompt) ∧
      run =
      (print (ModelBanner (model_or_default model)) ;;
       response <- tenacity.for_attempt_in get_retrier
                     (attempt_body self (model_or_default model) (part, str.strip prompt)
                        (get_generate_content_config (Some (model_or_default model)) None))
                     fuel ;;
       _parse_response response)%M).
Proof.
  intros run. subst run.
  destruct (fps_rejected rate) eqn:Hfps.
  { left. by apply transcribe_video_rejects_before_any_call. }
  destruct (get_video_part_cases self video_uri so eo rate)
    as [(_ & _ & Hpart)|(part & Hpart & _)].
  { right; left. unfold transcribe_video. by rewrite Hfps, Hpart. }
  destruct (select_prompt_cases so eo custom_prompt) as [[prompt Hprompt]|Hprompt].
  - do 3 right. exists part, prompt. repeat split; try done.
    by apply transcribe_video_unfold.
  - right; right; left. unfold transcribe_video.
    by rewrite Hfps, Hpart, bind_ret_l, Hprompt.
Qed.

End TranscribeVideo.

Section TranscribeVideoProperties.
Import VideoTranscriber.

Implicit Types (self : VideoTranscriber.t) (video_uri : string)
               (so eo : option timedelta.t) (rate : option float)
               (model custom_prompt : option string).

Lemma banner_loop_parse (banner : line) (loop : M GenerateContentResponse) :
  let run := (print banner ;; response <- loop ;; _parse_response response)%M in
  schedule_of (trace run) = schedule_of (trace loop) ∧
  requests_of (trace run) = requests_of (trace loop) ∧
  outcome_of run =
    match outcome_of loop with
    | Return r => outcome_of (_parse_response r)
    | Raise e => Raise e
    | OutOfFuel => OutOfFuel
    end.
Proof.
  intros run. subst run.
  rewrite !trace_bind, !outcome_bind. cbn [print emit outcome_of trace fst snd].
  rewrite !schedule_of_app, !requests_of_app.
  assert (schedule_of
            match outcome_of loop with
            | Return a => trace (_parse_response a)
            | _ => []
            end = []) as Hquiet.
  { destruct (outcome_of loop) as [r| |]; [|done..].
    apply (quiet_parse_response r). }
  rewrite (requests_of_quiet _ Hquiet), Hquiet. simpl. by rewrite !app_nil_r.
Qed.

Lemma total_wait_backoff (n : nat) :
  (n ≤ 6)%nat → foldr Z.add 0 (backoff_delay <$> seq 1 n) ≤ 75.
Proof.
  intros Hn.
  do 7 (destruct n as [|n]; [by vm_compute|]). lia.
Qed.

Lemma total_wait_nonneg (n k : nat) :
  0 ≤ foldr Z.add 0 (backoff_delay <$> seq k n).
Proof.
  revert k. induction n as [|n IH]; intros k; [done|].
  cbn [seq fmap list_fmap foldr]. specialize (IH (S k)).
  assert (0 ≤ backoff_delay k) by (unfold backoff_delay, BASE_DELAY, INCREMENT; lia).
  lia.
Qed.

(** With fuel for seven turns [transcribe_video] always ends.  It calls the
  remote model at most seven times, the calls are numbered 1, 2, ... in
  order, the wait after call [k] is [backoff_delay k], and all waits
  together last at most 75 seconds. *)
Theorem transcribe_video_ends_within_seven_calls
    self fuel video_uri so eo rate model custom_prompt :
  (7 ≤ fuel)%nat →
  let run := transcribe_video self fuel video_uri so eo rate model custom_prompt in
  outcome_of run ≠ OutOfFuel ∧
  ∃ n, (n ≤ 7)%nat ∧
       attempts_of (trace run) = seq 1 n ∧
       sleeps_of (trace run) = backoff_delay <$> seq 1 (n - 1) ∧
       0 ≤ total_wait (trace run) ≤ 75.
Proof.
  intros Hfuel run.
  destruct (transcribe_video_cases self fuel video_uri so eo rate model custom_prompt)
    as [Hrun|[Hrun|[Hrun|(part & prompt & _ & _ & _ & Hrun)]]];
    fold run in Hrun; rewrite Hrun;
    try (split; [done|]; exists 0%nat;
         repeat split; first [lia | done | unfold total_wait; simpl; lia]).
  match goal with
  | |- context [tenacity.for_attempt_in ?r ?b ?f] =>
      set (loop := tenacity.for_attempt_in r b f)
  end.
  destruct (banner_loop_parse (ModelBanner (model_or_default model)) loop)
    as (Hsched & _ & Hout).
  destruct (retry_loop_from self (model_or_default model) (part, str.strip prompt)
              (get_generate_content_config (Some (model_or_default model)) None)
              7 1 fuel) as (Hloop & (n & Hn & Hn_sched) & _); try lia.
  fold (tenacity.for_attempt_in get_retrier
          (attempt_body self (model_or_default model) (part, str.strip prompt)
             (get_generate_content_config (Some (model_or_default model)) None)) fuel)
    in Hloop, Hn_sched.
  fold loop in Hloop, Hn_sched.
  split.
  - rewrite Hout. destruct (outcome_of loop) as [r| |]; [|done..].
    destruct (quiet_parse_response r) as [_ [a ->]]. done.
  - exists n. split; [lia|].
    unfold total_wait.
    rewrite attempts_of_schedule, sleeps_of_schedule, Hsched, Hn_sched.
    rewrite calls_of_backoff_schedule.
    destruct n as [|n]; [lia|].
    rewrite waits_of_backoff_schedule. replace (S n - 1)%nat with n by lia.
    repeat split; try done.
    + apply total_wait_nonneg.
    + apply total_wait_backoff. lia.
Qed.

End TranscribeVideoProperties.

Section TranscribeVideoRequests.
Import VideoTranscriber.

Implicit Types (self : VideoTranscriber.t) (video_uri : string)
               (so eo : option timedelta.t) (rate : option float)
               (model custom_prompt : option string).

Lemma transcribe_video_requests_of
    self fuel video_uri so eo rate model custom_prompt :
  let run := transcribe_video self fuel video_uri so eo rate model custom_prompt in
  requests_of (trace run) = [] ∨
  ∃ part prompt,
    fps_rejected rate = false ∧
    get_video_part self video_uri so eo rate = ([], Return (Some part)) ∧
    select_prompt so eo custom_prompt = ([], Return prompt) ∧
    Forall (λ r, r = (model_or_default model, (part, str.strip prompt),
                      get_generate_content_config (Some (model_or_default model)) None))
           (requests_of (trace run)).
Proof.
  intros run.
  destruct (transcribe_video_cases self fuel video_uri so eo rate model custom_prompt)
    as [Hrun|[Hrun|[Hrun|(part & prompt & Hfps & Hpart & Hprompt & Hrun)]]];
    fold run in Hrun; rewrite Hrun; try by left.
  right. exists part, prompt. repeat split; try done.
  match goal with
  | |- context [tenacity.for_attempt_in ?r ?b ?f] =>
      set (loop := tenacity.for_attempt_in r b f)
  end.
  destruct (banner_loop_parse (ModelBanner (model_or_default model)) loop)
    as (_ & -> & _).
  apply retry_loop_requests.
Qed.

(** Every call of one [transcribe_video] invocation carries the same
  request: a retry resends the model name, the contents and the
  configuration of the first attempt. *)
Theorem transcribe_video_resends_the_same_request
    self fuel video_uri so eo rate model custom_prompt :
  let run := transcribe_video self fuel video_uri so eo rate model custom_prompt in
  ∀ r1 r2, r1 ∈ requests_of (trace run) → r2 ∈ requests_of (trace run) → r1 = r2.
Proof.
  intros run r1 r2 H1 H2.
  destruct (transcribe_video_requests_of self fuel video_uri so eo rate model custom_prompt)
    as [Hnone|(part & prompt & _ & _ & _ & Hall)]; fold run in Hnone || fold run in Hall.
  - rewrite Hnone in H1. by apply elem_of_nil in H1.
  - rewrite Forall_forall in Hall. by rewrite (Hall r1 H1), (Hall r2 H2).
Qed.

(** No request carries a sampling rate outside the accepted range, nor a
  zero rate or a zero offset: a rate that reaches the remote model is
  neither below [MIN_FPS] nor above [MAX_FPS], an offset that reaches it is
  the text [f"{d.total_seconds()}s"] of the caller's offset [d], which is
  not zero, the model name sent is the requested one or the default, and
  the URI sent is the rewritten one. *)
Theorem transcribe_video_requests_are_well_formed
    self fuel video_uri so eo rate model custom_prompt :
  let run := transcribe_video self fuel video_uri so eo rate model custom_prompt in
  Forall (λ r,
            r.1.1 = model_or_default model ∧
            file_uri (file_data r.1.2.1) = rewrite_video_uri self video_uri ∧
            (∀ f, fps (video_metadata r.1.2.1) = Some f →
                  rate = Some f ∧ float_truthy f = true ∧
                  PrimFloat.ltb f Config.MIN_FPS = false ∧
                  PrimFloat.ltb Config.MAX_FPS f = false) ∧
            (∀ x, start_offset (video_metadata r.1.2.1) = Some x →
                  ∃ d, so = Some d ∧ timedelta.microseconds d ≠ 0 ∧
                       x = SecondsText (timedelta.total_seconds d)) ∧
            (∀ x, end_offset (video_metadata r.1.2.1) = Some x →
                  ∃ d, eo = Some d ∧ timedelta.microseconds d ≠ 0 ∧
                       x = SecondsText (timedelta.total_seconds d)) ∧
            (so = None ∨ so = Some (timedelta.mk 0) →
             start_offset (video_metadata r.1.2.1) = None) ∧
            (eo = None ∨ eo = Some (timedelta.mk 0) →
             end_offset (video_metadata r.1.2.1) = None))
         (requests_of (trace run)).
Proof.
  intros run.
  destruct (transcribe_video_requests_of self fuel video_uri so eo rate model custom_prompt)
    as [Hnone|(part & prompt & Hfps & Hpart & _ & Hall)]; fold run in Hnone || fold run in Hall.
  { rewrite Hnone. constructor. }
  eapply Forall_impl; [exact Hall|]. intros r ->. cbn [fst snd].
  destruct (get_video_part_cases self video_uri so eo rate)
    as [(_ & _ & Hrefused)|(part' & Hpart' & Huri & _ & Hstart & Hend & Hrate)].
  { rewrite Hrefused in Hpart. discriminate. }
  rewrite Hpart' in Hpart. injection Hpart as ->.
  split; [done|]. split; [done|]. repeat split.
  - rewrite Hrate in H. by destruct (fps_truthy rate).
  - rewrite Hrate in H. destruct rate as [f'|]; [|done]. simpl in H.
    destruct (float_truthy f') eqn:Ht; congruence.
  - rewrite Hrate in H. destruct rate as [f'|]; [|done]. simpl in H, Hfps.
    destruct (float_truthy f') eqn:Ht; [|done]. injection H as ->.
    simpl in Hfps. by apply orb_false_iff in Hfps as [? _].
  - rewrite Hrate in H. destruct rate as [f'|]; [|done]. simpl in H, Hfps.
    destruct (float_truthy f') eqn:Ht; [|done]. injection H as ->.
    simpl in Hfps. by apply orb_false_iff in Hfps as [_ ?].
  - intros x H. rewrite Hstart in H. by apply offset_sent.
  - intros x H. rewrite Hend in H. by apply offset_sent.
  - intros H. rewrite Hstart. by apply offset_withheld.
  - intros H. rewrite Hend. by apply offset_withheld.
Qed.

(** Whatever aggregate [transcribe_video] returns, its two counts are the
  lengths of its two lists. *)
Theorem transcribe_video_returns_consistent_counts
    self fuel video_uri so eo rate model custom_prompt r :
  outcome_of (transcribe_video self fuel video_uri so eo rate model custom_prompt)
  = Return r →
  VideoTranscription.total_segments r
  = Z.of_nat (length (VideoTranscription.script_segments r)) ∧
  VideoTranscription.total_speakers r
  = Z.of_nat (length (VideoTranscription.speakers r)).
Proof.
  intros Hret.
  destruct (transcribe_video_cases self fuel video_uri so eo rate model custom_prompt)
    as [Hrun|[Hrun|[Hrun|(part & prompt & _ & _ & _ & Hrun)]]];
    cbv zeta in Hrun; rewrite Hrun in Hret.
  - discriminate.
  - by injection Hret as <-.
  - discriminate.
  - match type of Hret with
    | context [tenacity.for_attempt_in ?r ?b ?f] =>
        set (loop := tenacity.for_attempt_in r b f) in Hret
    end.
    destruct (banner_loop_parse (ModelBanner (model_or_default model)) loop)
      as (_ & _ & Hout).
    cbv zeta in Hout. rewrite Hout in Hret.
    destruct (outcome_of loop) as [response| |]; [|done..].
    unfold _parse_response in Hret.
    destruct (parsed response); injection Hret as <-; done.
Qed.

End TranscribeVideoRequests.

Section Sources.
Import VideoTranscriber.

Implicit Types (self : VideoTranscriber.t) (video_uri : string)
               (so eo : option timedelta.t) (rate : option float)
               (model custom_prompt : option string).

(** The first turn of the loop sends the request. *)
Lemma retry_loop_first_request self m contents config fuel k :
  ∃ rest,
    requests_of (trace (tenacity.iterate get_retrier
                          (attempt_body self m contents config) (S fuel) k))
    = (m, contents, config) :: rest.
Proof.
  destruct (generate_content (client self) k m contents config)
    as [e|response] eqn:Hremote.
  - pose proof (attempt_body_failure self m contents config k e Hremote) as Hbody.
    destruct (should_retry_request_runs (failed k e)) as (log & again & Hretry & _).
    rewrite (iterate_failure _ fuel k _ e log again Hbody Hretry).
    destruct again; cbn [negb]; [destruct (7 <=? k)%nat|];
      unfold trace; cbn [fst]; rewrite requests_of_app; simpl; eauto.
  - destruct (attempt_body_success self m contents config k response Hremote)
      as (log & Hbody & _).
    rewrite (iterate_success _ fuel k _ response Hbody).
    unfold trace. simpl. eauto.
Qed.

(** A request that passes validation, is not refused and has a prompt
  reaches the remote model. *)
Lemma transcribe_video_calls_remote
    self fuel video_uri so eo rate model custom_prompt part prompt :
  fps_rejected rate = false →
  get_video_part self video_uri so eo rate = ([], Return (Some part)) →
  select_prompt so eo custom_prompt = ([], Return prompt) →
  ∃ rest,
    requests_of (trace (transcribe_video self (S fuel) video_uri so eo rate
                          model custom_prompt))
    = (model_or_default model, (part, str.strip prompt),
       get_generate_content_config (Some (model_or_default model)) None) :: rest.
Proof.
  intros Hfps Hpart Hprompt.
  rewrite (transcribe_video_unfold self (S fuel) video_uri so eo rate model
             custom_prompt part prompt Hfps Hpart Hprompt).
  match goal with
  | |- context [tenacity.for_attempt_in ?r ?b ?f] =>
      set (loop := tenacity.for_attempt_in r b f)
  end.
  destruct (banner_loop_parse (ModelBanner (model_or_default model)) loop)
    as (_ & -> & _).
  apply retry_loop_first_request.
Qed.

Lemma rewrite_video_uri_vertex self video_uri :
  vertexai (client self) = true → rewrite_video_uri self video_uri = video_uri.
Proof. intros H. unfold rewrite_video_uri. by rewrite H. Qed.

Lemma rewrite_video_uri_youtube self youtube_id :
  rewrite_video_uri self (YOUTUBE_WATCH_PREFIX +:+ youtube_id)
  = YOUTUBE_WATCH_PREFIX +:+ youtube_id.
Proof. unfold rewrite_video_uri. by rewrite andb_false_r. Qed.

Lemma transcribe_video_on_vertex
    self fuel video_uri so eo rate model custom_prompt prompt :
  vertexai (client self) = true →
  fps_rejected rate = false →
  select_prompt so eo custom_prompt = ([], Return prompt) →
  ∃ part rest,
    requests_of (trace (transcribe_video self (S fuel) video_uri so eo rate
                          model custom_prompt))
    = (model_or_default model, (part, str.strip prompt),
       get_generate_content_config (Some (model_or_default model)) None) :: rest ∧
    file_uri (file_data part) = video_uri.
Proof.
  intros Hvertex Hfps Hprompt.
  destruct (get_video_part_accepted self video_uri so eo rate)
    as (part & Hpart & Huri); [by left|].
  destruct (transcribe_video_calls_remote self fuel video_uri so eo rate model
              custom_prompt part prompt Hfps Hpart Hprompt) as [rest Hrest].
  exists part, rest. split; [done|].
  by rewrite Huri, rewrite_video_uri_vertex.
Qed.

(** On the enterprise backend no URI is refused or rewritten: whatever the
  URI, a request that passes validation and has a prompt is sent with the
  URI as given. *)
Theorem vertex_sends_any_uri_unchanged
    self fuel video_uri so eo rate model custom_prompt prompt :
  vertexai (client self) = true →
  fps_rejected rate = false →
  select_prompt so eo custom_prompt = ([], Return prompt) →
  ∃ part rest,
    requests_of (trace (transcribe_video self (S fuel) video_uri so eo rate
                          model custom_prompt))
    = (model_or_default model, (part, str.strip prompt),
       get_generate_content_config (Some (model_or_default model)) None) :: rest ∧
    file_uri (file_data part) = video_uri.
Proof. apply transcribe_video_on_vertex. Qed.

(** A YouTube identifier is never refused, on either backend: the request
  is sent with the watch URL built from the identifier. *)
Theorem transcribe_youtube_video_is_never_refused
    self fuel youtube_id so eo rate model custom_prompt prompt :
  fps_rejected rate = false →
  select_prompt so eo custom_prompt = ([], Return prompt) →
  ∃ part rest,
    requests_of (trace (transcribe_youtube_video self (S fuel) youtube_id so eo rate
                          model custom_prompt))
    = (model_or_default model, (part, str.strip prompt),
       get_generate_content_config (Some (model_or_default model)) None) :: rest ∧
    file_uri (file_data part) = "https://www.youtube.com/watch?v=" +:+ youtube_id.
Proof.
  intros Hfps Hprompt. unfold transcribe_youtube_video.
  destruct (get_video_part_accepted self (YOUTUBE_WATCH_PREFIX +:+ youtube_id) so eo rate)
    as (part & Hpart & Huri).
  { right. rewrite rewrite_video_uri_youtube. apply startswith_app. }
  destruct (transcribe_video_calls_remote self fuel (YOUTUBE_WATCH_PREFIX +:+ youtube_id)
              so eo rate model custom_prompt part prompt Hfps Hpart Hprompt)
    as [rest Hrest].
  exists part, rest. split; [exact Hrest|].
  by rewrite Huri, rewrite_video_uri_youtube.
Qed.

(** On the lightweight backend [transcribe_cloud_storage_video] never
  reaches the remote model: whatever the bucket and the path, a request
  that passes validation ends with the refusal line and the empty
  aggregate. *)
Theorem transcribe_cloud_storage_video_refused_on_studio
    self fuel bucket path so eo rate model custom_prompt :
  vertexai (client self) = false →
  fps_rejected rate = false →
  transcribe_cloud_storage_video self fuel bucket path so eo rate model custom_prompt
  = ([Print OnlyYouTubeSupported], Return VideoTranscription.default).
Proof.
  intros Hstudio Hfps. unfold transcribe_cloud_storage_video, transcribe_video.
  rewrite Hfps.
  destruct (cloud_storage_uri_refused self (bucket +:+ "/" +:+ path) so eo rate Hstudio)
    as [Hrw _].
  rewrite get_video_part_refused; [done..|]. by rewrite Hrw.
Qed.

(** On the enterprise backend the same call sends the native
  [gs://bucket/path] URI. *)
Theorem transcribe_cloud_storage_video_native_on_vertex
    self fuel bucket path so eo rate model custom_prompt prompt :
  vertexai (client self) = true →
  fps_rejected rate = false →
  select_prompt so eo custom_prompt = ([], Return prompt) →
  ∃ part rest,
    requests_of (trace (transcribe_cloud_storage_video self (S fuel) bucket path so eo
                          rate model custom_prompt))
    = (model_or_default model, (part, str.strip prompt),
       get_generate_content_config (Some (model_or_default model)) None) :: rest ∧
    file_uri (file_data part) = "gs://" +:+ bucket +:+ "/" +:+ path.
Proof.
  intros Hvertex Hfps Hprompt. unfold transcribe_cloud_storage_video.
  by apply transcribe_video_on_vertex.
Qed.

End Sources.

Section Prompt.
Import VideoTranscriber.

Implicit Types (self : VideoTranscriber.t) (video_uri : string)
               (so eo : option timedelta.t) (rate : option float)
               (model custom_prompt : option string).

(** The loop ends at the first attempt that does not fail transiently: if
  attempts 1 to [k - 1] fail with errors the policy retries and attempt
  [k <= 7] either succeeds or fails otherwise, the loop ends with the
  outcome of attempt [k], after [k] calls and the [k - 1] waits between
  them. *)
Theorem retrier_stops_at_first_settled_attempt
    self (m : string) (contents : Part * string) (config : GenerateContentConfig)
    (fuel k : nat) :
  (1 ≤ k ≤ 7)%nat → (k ≤ fuel)%nat →
  (∀ j, (1 ≤ j < k)%nat →
        ∃ e, generate_content (client self) j m contents config = inl e ∧ transient e) →
  (∀ e, generate_content (client self) k m contents config = inl e → ¬ transient e) →
  let run := tenacity.for_attempt_in get_retrier
               (attempt_body self m contents config) fuel in
  outcome_of run =
    match generate_content (client self) k m contents config with
    | inr response => Return response
    | inl e => Raise e
    end ∧
  schedule_of (trace run) = backoff_schedule 1 k.
Proof.
  intros Hk Hfuel Hfail Hsettled. unfold tenacity.for_attempt_in.
  destruct k as [|d]; [lia|].
  apply (retry_loop_settles self m contents config d 1 fuel); try lia.
  - intros j Hj. apply Hfail. lia.
  - exact Hsettled.
Qed.

(** A non-empty custom prompt is what is sent, stripped, whatever the
  offsets are: no timecode format is chosen and no duration is computed. *)
Theorem custom_prompt_is_sent_stripped
    self fuel video_uri so eo rate model (p : string) :
  str.truthy p = true →
  Forall (λ r, r.1.2.2 = str.strip p)
         (requests_of (trace (transcribe_video self fuel video_uri so eo rate
                                model (Some p)))).
Proof.
  intros Hp.
  destruct (transcribe_video_requests_of self fuel video_uri so eo rate model (Some p))
    as [Hnone|(part & prompt & _ & _ & Hprompt & Hall)]; cbv zeta in *.
  { rewrite Hnone. constructor. }
  unfold select_prompt in Hprompt. rewrite Hp in Hprompt. injection Hprompt as <-.
  eapply Forall_impl; [exact Hall|]. by intros r ->.
Qed.

(** An empty model name or an empty custom prompt counts as none given. *)
Theorem empty_model_and_prompt_count_as_absent
    self fuel video_uri so eo rate :
  transcribe_video self fuel video_uri so eo rate (Some "") (Some "")
  = transcribe_video self fuel video_uri so eo rate None None.
Proof. reflexivity. Qed.

(** Without a custom prompt and with two non-zero offsets whose difference
  is representable, the prompt is the default one and names the extended
  timecode format exactly when the window lasts at least one hour. *)
Theorem default_prompt_follows_window_duration (s e : timedelta.t) :
  timedelta.microseconds s ≠ 0 →
  timedelta.microseconds e ≠ 0 →
  timedelta.min_us ≤ timedelta.microseconds e - timedelta.microseconds s
    ≤ timedelta.max_us →
  select_prompt (Some s) (Some e) None =
  ret (get_transcription_prompt
         (if 3600000000 <=? timedelta.microseconds e - timedelta.microseconds s
          then Config.EXTENDED_TIMECODE_FORMAT
          else Config.DEFAULT_TIMECODE_FORMAT)).
Proof.
  intros Hs He [Hlo Hhi].
  unfold select_prompt, window_duration, timedelta.truthy, timedelta.sub.
  destruct (Z.eqb_spec (timedelta.microseconds s) 0) as [|_]; [done|].
  destruct (Z.eqb_spec (timedelta.microseconds e) 0) as [|_]; [done|].
  cbn [negb andb].
  destruct (Z.leb_spec timedelta.min_us
              (timedelta.microseconds e - timedelta.microseconds s)); [|lia].
  destruct (Z.leb_spec (timedelta.microseconds e - timedelta.microseconds s)
              timedelta.max_us); [|lia].
  cbn [andb]. unfold ret at 1. rewrite bind_ret_l.
  unfold get_timecode_format, timedelta.truthy, timedelta.ge.
  cbn [timedelta.microseconds timedelta.of_hours].
  change (1 * 3600 * 1000000) with 3600000000.
  destruct (Z.leb_spec 3600000000
              (timedelta.microseconds e - timedelta.microseconds s)) as [Hge|Hlt].
  - destruct (Z.eqb_spec (timedelta.microseconds e - timedelta.microseconds s) 0);
      [lia|done].
  - by rewrite andb_false_r.
Qed.

End Prompt.

(* ===================================================================== *)
(** * More on the data model *)
(* ===================================================================== *)

Section Lookups.
Import VideoTranscription.

Implicit Types (self : VideoTranscription.t) (speaker_name : string) (voice_id : Z).

Lemma get_speaker_by_voice_id_loop_first pre sp post voice_id :
  Speaker.voice_id sp = voice_id →
  Forall (λ s, Speaker.voice_id s ≠ voice_id) pre →
  get_speaker_by_voice_id_loop (pre ++ sp :: post) voice_id = Some sp.
Proof.
  intros Hsp Hpre. induction Hpre as [|s pre Hs _ IH]; simpl.
  - by rewrite decide_True.
  - by rewrite decide_False.
Qed.

Lemma get_speaker_by_voice_id_loop_Some speakers voice_id sp :
  get_speaker_by_voice_id_loop speakers voice_id = Some sp →
  sp ∈ speakers ∧ Speaker.voice_id sp = voice_id.
Proof.
  induction speakers as [|s rest IH]; simpl; [done|].
  case_decide.
  - intros [= <-]. split; [by apply elem_of_cons; left|done].
  - intros H'. destruct (IH H') as [? ?]. split; [by apply elem_of_cons; right|done].
Qed.

Lemma get_speaker_by_voice_id_loop_None speakers voice_id :
  get_speaker_by_voice_id_loop speakers voice_id = None ↔
  Forall (λ s, Speaker.voice_id s ≠ voice_id) speakers.
Proof.
  induction speakers as [|s rest IH]; simpl; [by split; [constructor|]|].
  case_decide as Hs.
  - split; [done|]. intros Hall. by apply Forall_cons in Hall as [? _].
  - rewrite IH. split; [by constructor|]. intros Hall. by apply Forall_cons in Hall as [_ ?].
Qed.

Lemma find_speaker_loop_Some speakers speaker_name sp :
  find_speaker_loop speakers speaker_name = Some sp →
  sp ∈ speakers ∧ Speaker.name sp = speaker_name.
Proof.
  induction speakers as [|s rest IH]; simpl; [done|].
  case_decide.
  - intros [= <-]. split; [by apply elem_of_cons; left|done].
  - intros H'. destruct (IH H') as [? ?]. split; [by apply elem_of_cons; right|done].
Qed.

Lemma NoDup_fmap_elem_eq {A B} (f : A → B) (l : list A) (x y : A) :
  NoDup (f <$> l) → x ∈ l → y ∈ l → f x = f y → x = y.
Proof.
  induction l as [|a l IH]; simpl; intros Hnd Hx Hy Hf; [by apply elem_of_nil in Hx|].
  apply NoDup_cons in Hnd as [Ha Hnd].
  apply elem_of_cons in Hx as [->|Hx]; apply elem_of_cons in Hy as [->|Hy];
    try done.
  - destruct Ha. rewrite Hf. by apply list_elem_of_fmap_2.
  - destruct Ha. rewrite <- Hf. by apply list_elem_of_fmap_2.
  - by apply IH.
Qed.

(** [get_speaker_by_voice_id] returns the first speaker that carries the
  voice id, whatever comes after it in the list. *)
Theorem get_speaker_by_voice_id_first_match self voice_id pre sp post :
  speakers self = pre ++ sp :: post →
  Speaker.voice_id sp = voice_id →
  Forall (λ s, Speaker.voice_id s ≠ voice_id) pre →
  get_speaker_by_voice_id self voice_id = Some sp.
Proof.
  intros Hsplit Hsp Hpre. unfold get_speaker_by_voice_id. rewrite Hsplit.
  by apply get_speaker_by_voice_id_loop_first.
Qed.

(** The lookup answers [None] exactly when no speaker carries the voice
  id, and a speaker it returns is one of the list and carries the id. *)
Theorem get_speaker_by_voice_id_sound_and_complete self voice_id :
  (get_speaker_by_voice_id self voice_id = None ↔
   Forall (λ s, Speaker.voice_id s ≠ voice_id) (speakers self)) ∧
  (∀ sp, get_speaker_by_voice_id self voice_id = Some sp →
         sp ∈ speakers self ∧ Speaker.voice_id sp = voice_id).
Proof.
  split; [apply get_speaker_by_voice_id_loop_None|].
  intros sp. apply get_speaker_by_voice_id_loop_Some.
Qed.

(** When the speakers carry distinct voice ids, the two lookups agree:
  every segment returned for a name resolves, through its voice id, to a
  speaker of that name. *)
Theorem segments_by_speaker_resolve_to_that_speaker self speaker_name seg :
  NoDup (Speaker.voice_id <$> speakers self) →
  seg ∈ get_segments_by_speaker self speaker_name →
  ∃ sp, get_speaker_by_voice_id self (TranscriptSegment.voice_id seg) = Some sp ∧
        Speaker.name sp = speaker_name.
Proof.
  intros Hnd Hseg. unfold get_segments_by_speaker in Hseg.
  destruct (find_speaker_loop (speakers self) speaker_name) as [sp|] eqn:Hfind;
    [|by apply elem_of_nil in Hseg].
  apply find_speaker_loop_Some in Hfind as [Hin Hname].
  rewrite collect_segments_loop_filter in Hseg. simpl in Hseg.
  apply list_elem_of_filter in Hseg as [Hvid _].
  destruct (get_speaker_by_voice_id self (TranscriptSegment.voice_id seg))
    as [sp'|] eqn:Hget.
  - exists sp'. split; [done|].
    apply get_speaker_by_voice_id_loop_Some in Hget as [Hin' Hvid'].
    assert (sp' = sp) as ->; [|done].
    eapply NoDup_fmap_elem_eq; eauto. congruence.
  - apply get_speaker_by_voice_id_loop_None in Hget.
    rewrite Forall_forall in Hget. by destruct (Hget sp Hin).
Qed.

End Lookups.

Section Validation.

(** Whatever strings validation reads as whole numbers. *)
Variable lax_int : string → option Z.

(** A segment document that lacks the four optional tags validates, and
  the tags come out as [None]. *)
Theorem segment_without_optional_tags_validates
    (start_time end_time text : string) (voice_id : Z) :
  TranscriptSegmentJson.model_validate lax_int
    (JDict [("start_time", JStr start_time); ("end_time", JStr end_time);
            ("text", JStr text); ("voice_id", JInt voice_id)])
  = Some (TranscriptSegment.mk start_time end_time text voice_id None None None None).
Proof. reflexivity. Qed.

(** Validation does not recompute the counts: a document that holds the
  two lists but no counts validates to an aggregate whose counts are the
  declared default 0, and [update_counts] then sets them to the lengths. *)
Theorem validation_leaves_counts_at_default
    (segs : list TranscriptSegment.t) (sps : list Speaker.t) :
  ∃ r,
    VideoTranscriptionJson.model_validate lax_int
      (JDict [("script_segments", JList (TranscriptSegmentJson.model_dump <$> segs));
              ("speakers", JList (SpeakerJson.model_dump <$> sps))]) = Some r ∧
    VideoTranscription.script_segments r = segs ∧
    VideoTranscription.speakers r = sps ∧
    VideoTranscription.total_segments r = 0 ∧
    VideoTranscription.total_speakers r = 0 ∧
    VideoTranscription.total_segments (VideoTranscription.update_counts r)
      = Z.of_nat (length segs) ∧
    VideoTranscription.total_speakers (VideoTranscription.update_counts r)
      = Z.of_nat (length sps).
Proof.
  exists (VideoTranscription.mk segs sps [] None 0 0 None).
  split; [|done].
  unfold VideoTranscriptionJson.model_validate.
  cbv -[VideoTranscriptionJson.as_list_of fmap
        TranscriptSegmentJson.model_dump TranscriptSegmentJson.model_validate
        SpeakerJson.model_dump SpeakerJson.model_validate].
  rewrite (as_list_of_round_trip _ _ _ (segment_round_trip lax_int)).
  by rewrite (as_list_of_round_trip _ _ _ (speaker_round_trip lax_int)).
Qed.

(** A segment document without one of the four required fields is
  rejected. *)
Theorem segment_missing_required_field_is_rejected
    (items : list (string * json)) (key : string) :
  key ∈ ["start_time"; "end_time"; "text"; "voice_id"] →
  Json.get items key = None →
  TranscriptSegmentJson.model_validate lax_int (JDict items) = None.
Proof.
  intros Hkey Hmissing.
  unfold TranscriptSegmentJson.model_validate, Json.required. cbn [Json.as_dict mbind option_bind].
  repeat (apply elem_of_cons in Hkey as [->|Hkey]);
    [..|by apply elem_of_nil in Hkey];
    rewrite Hmissing; cbn [mbind option_bind];
    repeat (match goal with
            | |- context [Json.get items ?k ≫= ?f] =>
                destruct (Json.get items k ≫= f); cbn [mbind option_bind]; [|done]
            end); done.
Qed.

End Validation.

(* ===================================================================== *)
(** * Configuration *)
(* ===================================================================== *)

Section Configuration.
Import ConfigEnv.

Implicit Types (cls : ConfigEnv.t) (environ : gmap string string).

Lemma lower_of_flag (b : bool) :
  bool_decide (str_lower (str_of_bool b) = "true") = b.
Proof. by destruct b. Qed.

Lemma getenv_after_setup cls environ :
  getenv (setup_environment cls environ) "GOOGLE_GENAI_USE_VERTEXAI" "False"
    = str_of_bool (GOOGLE_GENAI_USE_VERTEXAI cls) ∧
  getenv (setup_environment cls environ) "GOOGLE_CLOUD_PROJECT" ""
    = GOOGLE_CLOUD_PROJECT cls ∧
  getenv (setup_environment cls environ) "GOOGLE_CLOUD_LOCATION" "global"
    = GOOGLE_CLOUD_LOCATION cls ∧
  getenv (setup_environment cls environ) "GOOGLE_API_KEY" ""
    = GOOGLE_API_KEY cls.
Proof.
  unfold getenv, setup_environment.
  repeat split; by rewrite ?lookup_insert_ne, lookup_insert_eq by done.
Qed.

(** Writing the configuration to the environment and evaluating the class
  body again gives back the same configuration, whatever the environment
  held before. *)
Theorem setup_environment_round_trip cls environ :
  load (setup_environment cls environ) = cls.
Proof.
  destruct (getenv_after_setup cls environ) as (Hflag & Hproject & Hlocation & Hkey).
  unfold load. rewrite Hflag, Hproject, Hlocation, Hkey, lower_of_flag.
  by destruct cls.
Qed.

Lemma get_service_name_after_setup cls environ :
  get_service_name (setup_environment cls environ) =
  if GOOGLE_GENAI_USE_VERTEXAI cls then "Vertex AI" else "Google AI Studio".
Proof.
  destruct (getenv_after_setup cls environ) as (Hflag & _).
  unfold get_service_name. by rewrite Hflag, lower_of_flag.
Qed.

(** With validation on, the constructor raises exactly when the credential
  of the selected backend is empty (the project for the enterprise
  backend, the API key for the lightweight one).  Either way it leaves the
  configuration written to the environment.  When it succeeds, the service
  name it records is the one of the configured backend, and the client
  gets the configured API key when there is one. *)
Theorem init_checks_the_credential_of_the_backend cls environ :
  let '(environ', _, result) := VideoTranscriber_init cls environ false in
  environ' = setup_environment cls environ ∧
  (result = inl (ValueError INVALID_CONFIGURATION) ↔
   (if GOOGLE_GENAI_USE_VERTEXAI cls
    then GOOGLE_CLOUD_PROJECT cls = ""
    else GOOGLE_API_KEY cls = "")) ∧
  (∀ api_key service_name,
      result = inr (api_key, service_name) →
      service_name =
        (if GOOGLE_GENAI_USE_VERTEXAI cls then "Vertex AI" else "Google AI Studio") ∧
      api_key =
        (if str.truthy (GOOGLE_API_KEY cls) then Some (GOOGLE_API_KEY cls) else None)).
Proof.
  unfold VideoTranscriber_init. cbn [negb].
  assert (setup_environment cls environ !! "GOOGLE_API_KEY" = Some (GOOGLE_API_KEY cls))
    as Hkey by (unfold setup_environment; apply lookup_insert_eq).
  rewrite Hkey.
  assert (<["GOOGLE_API_KEY" := GOOGLE_API_KEY cls]> (setup_environment cls environ)
          = setup_environment cls environ) as Hsame by (by apply insert_id).
  pose proof (get_service_name_after_setup cls environ) as Hname.
  unfold validate_config.
  destruct cls as [flag project location key]. cbn [GOOGLE_GENAI_USE_VERTEXAI
    GOOGLE_CLOUD_PROJECT GOOGLE_CLOUD_LOCATION GOOGLE_API_KEY] in *.
  destruct flag, project as [|c project], key as [|c' key];
    cbn [str.truthy negb]; rewrite ?Hsame, ?Hname;
    (split; [done|]); (split; [first [split; [done|done] | split; intros; done]|]);
    intros api_key service_name; try done; by intros [= <- <-].
Qed.

End Configuration.

(* ===================================================================== *)
(** * The rows of the visualizer *)
(* ===================================================================== *)

Section Colours.
Import TranscriptionVisualizer.

Implicit Types (speakers : list Speaker.t) (mapping : gmap Z string) (v : Z).

Lemma cycle_nth_known (i : nat) : cycle_nth known_speaker_colors i ∈ known_speaker_colors.
Proof.
  unfold cycle_nth. apply list_elem_of_lookup.
  exists (i mod length known_speaker_colors)%nat.
  apply list_lookup_lookup_total_lt. by apply Nat.mod_upper_bound.
Qed.

Lemma cycle_nth_unknown (i : nat) :
  cycle_nth unknown_speaker_colors i ∈ unknown_speaker_colors.
Proof.
  unfold cycle_nth. apply list_elem_of_lookup.
  exists (i mod length unknown_speaker_colors)%nat.
  apply list_lookup_lookup_total_lt. by apply Nat.mod_upper_bound.
Qed.

(** A voice id that no remaining speaker carries keeps what the mapping
  already holds for it. *)
Lemma color_mapping_loop_other speakers known unknown mapping v :
  v ∉ Speaker.voice_id <$> speakers →
  color_mapping_loop speakers known unknown mapping !! v = mapping !! v.
Proof.
  revert known unknown mapping.
  induction speakers as [|sp rest IH]; intros known unknown mapping Hv; [done|].
  rewrite fmap_cons, not_elem_of_cons in Hv. destruct Hv as [Hne Hrest].
  simpl. case_decide; rewrite IH by done; by rewrite lookup_insert_ne.
Qed.

(** Every voice id of a speaker gets a colour of one of the palettes. *)
Lemma color_mapping_loop_member speakers known unknown mapping v :
  v ∈ Speaker.voice_id <$> speakers →
  ∃ c, color_mapping_loop speakers known unknown mapping !! v = Some c ∧
       c ∈ known_speaker_colors ++ unknown_speaker_colors.
Proof.
  revert known unknown mapping.
  induction speakers as [|sp rest IH]; intros known unknown mapping Hv;
    [by apply elem_of_nil in Hv|].
  rewrite fmap_cons in Hv. cbn [color_mapping_loop].
  destruct (decide (v ∈ Speaker.voice_id <$> rest)) as [Hrest|Hrest].
  { case_decide; by apply IH. }
  apply elem_of_cons in Hv as [->|Hv]; [|done].
  case_decide; rewrite color_mapping_loop_other by done; rewrite lookup_insert_eq.
  - exists (cycle_nth known_speaker_colors known). split; [reflexivity|].
    apply elem_of_app. left. apply cycle_nth_known.
  - exists (cycle_nth unknown_speaker_colors unknown). split; [reflexivity|].
    apply elem_of_app. right. apply cycle_nth_unknown.
Qed.

(** The fallback colour ["red"] is given to exactly the voice ids that no
  speaker carries: every speaker in the list gets a palette colour. *)
Theorem red_marks_exactly_the_voices_without_speaker speakers v :
  color_or_red (get_color_for_voice_mapping speakers) v = "red" ↔
  v ∉ Speaker.voice_id <$> speakers.
Proof.
  unfold color_or_red, get_color_for_voice_mapping. split.
  - intros Hred Hin.
    destruct (color_mapping_loop_member speakers 0 0 ∅ v Hin) as (c & Hc & Hpalette).
    rewrite Hc in Hred. simpl in Hred. subst c.
    assert ("red" ∉ known_speaker_colors ++ unknown_speaker_colors) by compute_done.
    done.
  - intros Hnot. by rewrite color_mapping_loop_other, lookup_empty.
Qed.

Lemma color_mapping_loop_tells speakers known unknown mapping sp :
  NoDup (Speaker.voice_id <$> speakers) →
  sp ∈ speakers →
  ∃ c, color_mapping_loop speakers known unknown mapping !! Speaker.voice_id sp = Some c ∧
       if decide (Speaker.name sp ≠ Config.NOT_FOUND_MARKER)
       then c ∈ known_speaker_colors else c ∈ unknown_speaker_colors.
Proof.
  revert known unknown mapping.
  induction speakers as [|s rest IH]; intros known unknown mapping Hnd Hin;
    [by apply elem_of_nil in Hin|].
  rewrite fmap_cons in Hnd. apply NoDup_cons in Hnd as [Hfresh Hnd].
  apply elem_of_cons in Hin as [->|Hin].
  - simpl. case_decide; rewrite color_mapping_loop_other by done;
      rewrite lookup_insert_eq.
    + exists (cycle_nth known_speaker_colors known). split; [reflexivity|].
      apply cycle_nth_known.
    + exists (cycle_nth unknown_speaker_colors unknown). split; [reflexivity|].
      apply cycle_nth_unknown.
  - cbn [color_mapping_loop].
    destruct (decide (Speaker.name s ≠ Config.NOT_FOUND_MARKER)); by apply IH.
Qed.

(** When voice ids are distinct, the colour of a speaker is one of the
  speaker palette when the speaker has a name, and one of the greys when
  its name is the not-found marker. *)
Theorem grey_marks_the_unnamed_speakers speakers sp :
  NoDup (Speaker.voice_id <$> speakers) →
  sp ∈ speakers →
  if decide (Speaker.name sp ≠ Config.NOT_FOUND_MARKER)
  then color_or_red (get_color_for_voice_mapping speakers) (Speaker.voice_id sp)
       ∈ known_speaker_colors
  else color_or_red (get_color_for_voice_mapping speakers) (Speaker.voice_id sp)
       ∈ unknown_speaker_colors.
Proof.
  intros Hnd Hin.
  destruct (color_mapping_loop_tells speakers 0 0 ∅ sp Hnd Hin) as (c & Hc & Hpalette).
  unfold color_or_red, get_color_for_voice_mapping. rewrite Hc. simpl.
  by case_decide.
Qed.

End Colours.

Section Rows.
Import TranscriptionVisualizer.

Implicit Types (speakers : list Speaker.t) (v : Z) (t : VideoTranscription.t).

Lemma get_speaker_by_voice_id_loop_app (l1 l2 : list Speaker.t) v :
  VideoTranscription.get_speaker_by_voice_id_loop (l1 ++ l2) v =
  match VideoTranscription.get_speaker_by_voice_id_loop l1 v with
  | Some sp => Some sp
  | None => VideoTranscription.get_speaker_by_voice_id_loop l2 v
  end.
Proof. induction l1 as [|s l1 IH]; simpl; [done|]. by case_decide. Qed.

(** The dict comprehension keeps, for each voice id, the last speaker. *)
Lemma speaker_for_voice_foldl speakers (m : gmap Z Speaker.t) v :
  foldl (λ m speaker, <[Speaker.voice_id speaker := speaker]> m) m speakers !! v =
  match VideoTranscription.get_speaker_by_voice_id_loop (reverse speakers) v with
  | Some sp => Some sp
  | None => m !! v
  end.
Proof.
  revert m. induction speakers as [|s rest IH]; intros m; [done|].
  cbn [foldl]. rewrite IH, reverse_cons, get_speaker_by_voice_id_loop_app.
  destruct (VideoTranscription.get_speaker_by_voice_id_loop (reverse rest) v); [done|].
  simpl. case_decide as Hs.
  - by rewrite Hs, lookup_insert_eq.
  - by rewrite lookup_insert_ne.
Qed.

(** The display joins a voice id to the last speaker that carries it,
  whatever comes before that speaker in the list. *)
Theorem display_joins_to_the_last_speaker speakers v pre sp post :
  speakers = pre ++ sp :: post →
  Speaker.voice_id sp = v →
  Forall (λ s, Speaker.voice_id s ≠ v) post →
  speaker_for_voice speakers !! v = Some sp.
Proof.
  intros -> Hsp Hpost. unfold speaker_for_voice. rewrite speaker_for_voice_foldl.
  rewrite reverse_app, reverse_cons, <- app_assoc. cbn [app].
  rewrite (get_speaker_by_voice_id_loop_first (reverse post) sp (reverse pre) v Hsp);
    [done|].
  by apply Forall_reverse.
Qed.

(** The display and the lookup of the model join a voice id to the same
  speaker when the speakers carry distinct voice ids. *)
Theorem display_and_lookup_agree_on_distinct_ids t v :
  NoDup (Speaker.voice_id <$> VideoTranscription.speakers t) →
  speaker_for_voice (VideoTranscription.speakers t) !! v
  = VideoTranscription.get_speaker_by_voice_id t v.
Proof.
  intros Hnd. unfold speaker_for_voice, VideoTranscription.get_speaker_by_voice_id.
  rewrite speaker_for_voice_foldl, lookup_empty.
  set (speakers := VideoTranscription.speakers t) in *.
  destruct (VideoTranscription.get_speaker_by_voice_id_loop (reverse speakers) v)
    as [last|] eqn:Hlast.
  - apply get_speaker_by_voice_id_loop_Some in Hlast as [Hin Hvid].
    apply elem_of_reverse in Hin. rewrite reverse_involutive in Hin.
    destruct (VideoTranscription.get_speaker_by_voice_id_loop speakers v)
      as [first|] eqn:Hfirst.
    + apply get_speaker_by_voice_id_loop_Some in Hfirst as [Hin' Hvid'].
      f_equal.
      apply (NoDup_fmap_elem_eq Speaker.voice_id speakers last first Hnd Hin Hin').
      congruence.
    + apply get_speaker_by_voice_id_loop_None in Hfirst.
      rewrite Forall_forall in Hfirst. by destruct (Hfirst last Hin).
  - apply get_speaker_by_voice_id_loop_None in Hlast.
    symmetry. apply get_speaker_by_voice_id_loop_None.
    by apply Forall_reverse.
Qed.


Lemma script_rows_loop_lookup cfv sfv previous_voice (segments : list TranscriptSegment.t)
    (i : nat) segment :
  segments !! i = Some segment →
  script_rows_loop cfv sfv previous_voice segments !! i =
  Some [ TranscriptSegment.start_time segment;
         TranscriptSegment.end_time segment;
         (if decide (Some (TranscriptSegment.voice_id segment)
                     ≠ voice_before previous_voice segments i)
          then speaker_label sfv (TranscriptSegment.voice_id segment) else DITTO);
         TranscriptSegment.text segment;
         color_or_red cfv (TranscriptSegment.voice_id segment) ].
Proof.
  revert previous_voice i.
  induction segments as [|s rest IH]; intros previous_voice i Hi; [done|].
  destruct i as [|i]; simpl in Hi.
  - by injection Hi as ->.
  - cbn [script_rows_loop]. rewrite lookup_cons. rewrite (IH _ i Hi).
    destruct i as [|i]; done.
Qed.


End Rows.

Section Tables.
Import TranscriptionVisualizer.

Implicit Types (t : VideoTranscription.t).


(** The speaker cell of a row is the ditto mark when the segment before it
  has the same voice id, and the label of the voice otherwise; the first
  row always shows the label. *)
Theorem ditto_marks_a_repeated_voice t i segment :
  VideoTranscription.script_segments t !! i = Some segment →
  ∃ row,
    script_segments_rows t !! S i = Some row ∧
    row !! 2%nat =
      Some (if decide (Some (TranscriptSegment.voice_id segment)
                       ≠ voice_before None (VideoTranscription.script_segments t) i)
            then speaker_label (speaker_for_voice (VideoTranscription.speakers t))
                   (TranscriptSegment.voice_id segment)
            else DITTO).
Proof.
  intros Hi. unfold script_segments_rows. rewrite lookup_cons.
  rewrite (script_rows_loop_lookup _ _ None _ i segment Hi).
  eexists. split; reflexivity.
Qed.

Lemma sanitize_field_marker (s : string) : sanitize_field s Config.NOT_FOUND_MARKER = s.
Proof. unfold sanitize_field. by case_decide. Qed.

(** The speakers table shows every field as stored (replacing the marker
  by the marker changes nothing), and the colour of a speaker row is never
  the fallback ["red"]. *)
Theorem speakers_rows_show_the_fields_as_stored t i sp :
  VideoTranscription.speakers t !! i = Some sp →
  ∃ color,
    speakers_rows t !! S i =
      Some [ pretty (Speaker.voice_id sp); Speaker.name sp; Speaker.company sp;
             Speaker.position sp; Speaker.role_in_video sp; color ] ∧
    color ≠ "red".
Proof.
  intros Hi. unfold speakers_rows. rewrite lookup_cons, list_lookup_fmap, Hi.
  cbn [fmap option_fmap option_map]. rewrite !sanitize_field_marker.
  eexists. split; [reflexivity|].
  intros Hred.
  assert (Speaker.voice_id sp ∈ Speaker.voice_id <$> VideoTranscription.speakers t) as Hin.
  { apply list_elem_of_fmap_2. by eapply list_elem_of_lookup_2. }
  destruct (color_mapping_loop_member (VideoTranscription.speakers t) 0 0 ∅ _ Hin)
    as (c & Hc & Hpalette).
  unfold color_or_red, get_color_for_voice_mapping in Hred.
  rewrite Hc in Hred. simpl in Hred. subst c.
  assert ("red" ∉ known_speaker_colors ++ unknown_speaker_colors) by compute_done.
  done.
Qed.

(** [export_to_csv] announces exactly the files it writes, in the order it
  writes them: the segments file and the speakers file, and the
  translations file when the translation table is not empty.  The
  segments file has one row per segment. *)
Theorem export_announces_what_it_writes t (base_filename : string) :
  (export_to_csv t base_filename).2 = (export_to_csv t base_filename).1.*1 ∧
  length (export_to_csv t base_filename).1 =
    (if decide (VideoTranscription.translation_table t = []) then 2%nat else 3%nat) ∧
  (export_to_csv t base_filename).2 =
    [ base_filename +:+ "_segments.csv"; base_filename +:+ "_speakers.csv" ]
    ++ (if decide (VideoTranscription.translation_table t = []) then []
        else [ base_filename +:+ "_translations.csv" ]) ∧
  (export_to_csv t base_filename).1 !! 1%nat
    = Some (base_filename +:+ "_speakers.csv",
            SpeakersData (VideoTranscription.speakers t)) ∧
  (export_to_csv t base_filename).1 !! 2%nat
    = (if decide (VideoTranscription.translation_table t = []) then None
       else Some (base_filename +:+ "_translations.csv",
                  TranslationsData (VideoTranscription.translation_table t))) ∧
  ∃ rows,
    (export_to_csv t base_filename).1 !! 0%nat
      = Some (base_filename +:+ "_segments.csv", SegmentsData rows) ∧
    length rows = length (VideoTranscription.script_segments t).
Proof.
  unfold export_to_csv.
  destruct (VideoTranscription.translation_table t) as [|row rows]; cbn [fst snd];
    repeat (split; [done|]);
    eexists; (split; [reflexivity|]); by rewrite length_fmap.
Qed.

(** A row of the segments file carries the name, company and position of
  the first speaker with the segment's voice id, and the marker in all
  three places when there is no such speaker. *)
Theorem segment_row_joins_the_first_speaker t segment :
  (Forall (λ s, Speaker.voice_id s ≠ TranscriptSegment.voice_id segment)
          (VideoTranscription.speakers t) →
   row_speaker_name (segment_row t segment) = "?" ∧
   row_speaker_company (segment_row t segment) = "?" ∧
   row_speaker_position (segment_row t segment) = "?") ∧
  (∀ pre sp post,
      VideoTranscription.speakers t = pre ++ sp :: post →
      Speaker.voice_id sp = TranscriptSegment.voice_id segment →
      Forall (λ s, Speaker.voice_id s ≠ TranscriptSegment.voice_id segment) pre →
      row_speaker_name (segment_row t segment) = Speaker.name sp ∧
      row_speaker_company (segment_row t segment) = Speaker.company sp ∧
      row_speaker_position (segment_row t segment) = Speaker.position sp).
Proof.
  unfold segment_row, VideoTranscription.get_speaker_by_voice_id. split.
  - intros Hnone. apply get_speaker_by_voice_id_loop_None in Hnone.
    by rewrite Hnone.
  - intros pre sp post -> Hsp Hpre.
    by rewrite (get_speaker_by_voice_id_loop_first pre sp post _ Hsp Hpre).
Qed.

End Tables.

(* ===================================================================== *)
(** * The speaker distribution chart *)
(* ===================================================================== *)

Section SpeakerCounts.
Import VideoTranscription.

Implicit Types (t : VideoTranscription.t) (speakers : list Speaker.t)
               (segments : list TranscriptSegment.t).

Lemma find_speaker_loop_self speakers sp :
  NoDup (Speaker.name <$> speakers) → sp ∈ speakers →
  find_speaker_loop speakers (Speaker.name sp) = Some sp.
Proof.
  induction speakers as [|s rest IH]; intros Hnd Hin; [by apply elem_of_nil in Hin|].
  rewrite fmap_cons in Hnd. apply NoDup_cons in Hnd as [Hfresh Hnd].
  simpl. apply elem_of_cons in Hin as [->|Hin]; [by rewrite decide_True|].
  rewrite decide_False; [by apply IH|].
  intros Hsame. apply Hfresh. rewrite Hsame. by apply list_elem_of_fmap_2.
Qed.

Lemma filter_length_split {A} (P Q R : A → Prop)
    `{!∀ x, Decision (P x), !∀ x, Decision (Q x), !∀ x, Decision (R x)} (l : list A) :
  (∀ x, R x ↔ P x ∨ Q x) → (∀ x, P x → Q x → False) →
  (length (filter P l) + length (filter Q l) = length (filter R l))%nat.
Proof.
  intros HR Hdisjoint. induction l as [|x l IH]; [done|].
  rewrite !filter_cons.
  destruct (decide (P x)) as [HP|HP], (decide (Q x)) as [HQ|HQ],
    (decide (R x)) as [HRx|HRx]; simpl; try lia;
    first [by destruct (Hdisjoint x) | destruct HRx; apply HR; tauto
          | apply HR in HRx; tauto].
Qed.

Lemma filter_all {A} (P : A → Prop) `{!∀ x, Decision (P x)} (l : list A) :
  Forall P l → filter P l = l.
Proof.
  induction 1 as [|x l Hx _ IH]; [done|]. by rewrite filter_cons, decide_True, IH.
Qed.

(** Over speakers with distinct voice ids, the per-speaker segment counts
  add up to the number of segments that belong to one of them. *)
Lemma counts_by_voice_add_up speakers segments :
  NoDup (Speaker.voice_id <$> speakers) →
  foldr Z.add 0
    ((λ sp, Z.of_nat (length (filter (λ seg, TranscriptSegment.voice_id seg
                                              = Speaker.voice_id sp) segments)))
       <$> speakers)
  = Z.of_nat (length (filter (λ seg, TranscriptSegment.voice_id seg
                                       ∈ Speaker.voice_id <$> speakers) segments)).
Proof.
  induction speakers as [|sp rest IH]; intros Hnd.
  - simpl. rewrite (list_filter_iff _ (λ _, False)); [|by intros x; rewrite elem_of_nil].
    by induction segments.
  - rewrite fmap_cons in Hnd. apply NoDup_cons in Hnd as [Hfresh Hnd].
    rewrite !fmap_cons. cbn [foldr]. rewrite (IH Hnd), <- Nat2Z.inj_add. f_equal.
    apply filter_length_split.
    + intros seg. apply elem_of_cons.
    + intros seg Heq Hin. apply Hfresh. by rewrite <- Heq.
Qed.

(** When the speakers have distinct names and distinct voice ids, none is
  named with the not-found marker, and every segment carries the voice id
  of some speaker, the counts of the chart add up to the number of
  segments: each segment is counted once. *)
Theorem speaker_counts_add_up_to_the_segments t :
  NoDup (Speaker.name <$> speakers t) →
  NoDup (Speaker.voice_id <$> speakers t) →
  Forall (λ sp, Speaker.name sp ≠ "?") (speakers t) →
  Forall (λ seg, TranscriptSegment.voice_id seg ∈ Speaker.voice_id <$> speakers t)
         (script_segments t) →
  foldr Z.add 0 (speaker_counts t) = Z.of_nat (length (script_segments t)).
Proof.
  intros Hnames Hids Hnamed Hcovered. unfold speaker_counts.
  rewrite (Forall_fmap_ext_1 _
             (λ sp, Z.of_nat (length (filter (λ seg, TranscriptSegment.voice_id seg
                                                      = Speaker.voice_id sp)
                                             (script_segments t))))).
  - rewrite (counts_by_voice_add_up _ _ Hids). by rewrite filter_all.
  - rewrite Forall_forall. intros sp Hin.
    rewrite Forall_forall in Hnamed. rewrite decide_True by by apply Hnamed.
    unfold get_segments_by_speaker.
    rewrite (find_speaker_loop_self _ sp Hnames Hin).
    by rewrite collect_segments_loop_filter.
Qed.

End SpeakerCounts.

(* ===================================================================== *)
(** * Supplementary scenarios *)
(* ===================================================================== *)

Section RejectedRates.
Import VideoTranscriber.

(** A non-zero sampling rate below [MIN_FPS] or above [MAX_FPS] makes
  [transcribe_video] raise the configuration error at once: nothing is
  printed, no video reference is built and the remote model is not
  called. *)
Theorem nonzero_out_of_range_rate_is_rejected_first
    (self : VideoTranscriber.t) (fuel : nat) (video_uri : string)
    (so eo : option timedelta.t) (f : float) (model custom_prompt : option string) :
  float_truthy f = true →
  PrimFloat.ltb f Config.MIN_FPS = true ∨ PrimFloat.ltb Config.MAX_FPS f = true →
  transcribe_video self fuel video_uri so eo (Some f) model custom_prompt
  = ([], Raise (ValueError "FPS must be between 0.1 and 24.0")).
Proof.
  intros Htruthy Hout. apply transcribe_video_rejects_before_any_call.
  apply fps_rejected_iff. by split.
Qed.

End RejectedRates.

Lemma transcribe_video_ends_within_seven_calls_witness :
  let run := VideoTranscriber.transcribe_video SampleClients.studio_rate_limited 7
               SampleClients.youtube_url None None None None None in
  outcome_of run ≠ OutOfFuel ∧
  ∃ n, (n ≤ 7)%nat ∧
       attempts_of (trace run) = seq 1 n ∧
       sleeps_of (trace run) = backoff_delay <$> seq 1 (n - 1) ∧
       0 ≤ total_wait (trace run) ≤ 75.
Proof.
  apply (transcribe_video_ends_within_seven_calls SampleClients.studio_rate_limited 7
           SampleClients.youtube_url None None None None None).
  lia.
Defined.

Lemma transcribe_video_resends_the_same_request_witness :
  let requests :=
    requests_of (trace (VideoTranscriber.transcribe_video SampleClients.studio_flaky 7
                          SampleClients.youtube_url None None None None None)) in
  default MoreSamples.default_request (head requests)
  = default MoreSamples.default_request (last requests).
Proof.
  apply (transcribe_video_resends_the_same_request SampleClients.studio_flaky 7
           SampleClients.youtube_url None None None None None).
  - vm_compute. apply elem_of_cons. by left.
  - vm_compute. do 3 (apply elem_of_cons; right). apply elem_of_cons. by left.
Defined.

Lemma transcribe_video_returns_consistent_counts_witness :
  VideoTranscription.total_segments (VideoTranscription.update_counts Sample.wrong_counts)
  = 3 ∧
  VideoTranscription.total_speakers (VideoTranscription.update_counts Sample.wrong_counts)
  = 1.
Proof.
  apply (transcribe_video_returns_consistent_counts SampleClients.studio_ok 7
           SampleClients.youtube_url None None None None None
           (VideoTranscription.update_counts Sample.wrong_counts)).
  reflexivity.
Defined.

Lemma retrier_stops_at_first_settled_attempt_witness :
  let run := tenacity.for_attempt_in VideoTranscriber.get_retrier
               (VideoTranscriber.attempt_body SampleClients.studio_flaky
                  Config.DEFAULT_MODEL (SampleClients.sample_part, "prompt")
                  SampleClients.sample_config) 7 in
  outcome_of run = Return SampleClients.ok_response ∧
  schedule_of (trace run) = backoff_schedule 1 4.
Proof.
  apply (retrier_stops_at_first_settled_attempt SampleClients.studio_flaky
           Config.DEFAULT_MODEL (SampleClients.sample_part, "prompt")
           SampleClients.sample_config 7 4).
  - lia.
  - lia.
  - intros j Hj. exists (SampleClients.quota_error j). split.
    + destruct j as [|[|[|[|j]]]]; (reflexivity || lia).
    + exists 429, (Some (if (j =? 7)%nat then "Quota exceeded (seventh call)"
                         else "Quota exceeded")).
      split; [reflexivity|by left].
  - intros e He. discriminate He.
Defined.

Lemma vertex_sends_any_uri_unchanged_witness :
  ∃ part rest,
    requests_of (trace (VideoTranscriber.transcribe_video MoreSamples.vertex_ok 7
                          SampleClients.bucket_uri None None None None None))
    = (Config.DEFAULT_MODEL,
       (part, str.strip (VideoTranscriber.get_transcription_prompt "MM:SS")),
       VideoTranscriber.get_generate_content_config (Some Config.DEFAULT_MODEL) None)
      :: rest ∧
    file_uri (file_data part) = "gs://bucket/video.mp4".
Proof.
  apply (vertex_sends_any_uri_unchanged MoreSamples.vertex_ok 6
           SampleClients.bucket_uri None None None None None
           (VideoTranscriber.get_transcription_prompt "MM:SS")); reflexivity.
Defined.

Lemma transcribe_youtube_video_is_never_refused_witness :
  ∃ part rest,
    requests_of (trace (VideoTranscriber.transcribe_youtube_video SampleClients.studio_ok 7
                          "abc123" None None None None None))
    = (Config.DEFAULT_MODEL,
       (part, str.strip (VideoTranscriber.get_transcription_prompt "MM:SS")),
       VideoTranscriber.get_generate_content_config (Some Config.DEFAULT_MODEL) None)
      :: rest ∧
    file_uri (file_data part) = "https://www.youtube.com/watch?v=abc123".
Proof.
  apply (transcribe_youtube_video_is_never_refused SampleClients.studio_ok 6
           "abc123" None None None None None
           (VideoTranscriber.get_transcription_prompt "MM:SS")); reflexivity.
Defined.

Lemma transcribe_cloud_storage_video_refused_on_studio_witness :
  VideoTranscriber.transcribe_cloud_storage_video SampleClients.studio_ok 7
    "bucket" "video.mp4" None None (Some 1.0%float) None None
  = ([Print OnlyYouTubeSupported], Return VideoTranscription.default).
Proof.
  apply (transcribe_cloud_storage_video_refused_on_studio SampleClients.studio_ok 7
           "bucket" "video.mp4" None None (Some 1.0%float) None None); reflexivity.
Defined.

Lemma custom_prompt_is_sent_stripped_witness :
  Forall (λ r, r.1.2.2 = "Summarise the video.")
         (requests_of (trace (VideoTranscriber.transcribe_video SampleClients.studio_ok 7
                                SampleClients.youtube_url None None None None
                                (Some "  Summarise the video. ")))).
Proof.
  apply (custom_prompt_is_sent_stripped SampleClients.studio_ok 7
           SampleClients.youtube_url None None None None "  Summarise the video. ").
  reflexivity.
Defined.

Lemma default_prompt_follows_window_duration_witness :
  VideoTranscriber.select_prompt (Some (timedelta.of_seconds 1))
    (Some (timedelta.of_seconds 7201)) None
  = ret (VideoTranscriber.get_transcription_prompt "H:MM:SS").
Proof.
  apply (default_prompt_follows_window_duration (timedelta.of_seconds 1)
           (timedelta.of_seconds 7201)).
  - discriminate.
  - discriminate.
  - vm_compute. split; discriminate.
Defined.

Lemma nonzero_out_of_range_rate_is_rejected_first_witness :
  VideoTranscriber.transcribe_video SampleClients.studio_ok 7 SampleClients.youtube_url
    None None (Some 50.0%float) None None
  = ([], Raise (ValueError "FPS must be between 0.1 and 24.0")).
Proof.
  apply (nonzero_out_of_range_rate_is_rejected_first SampleClients.studio_ok 7
           SampleClients.youtube_url None None 50.0%float None None).
  - reflexivity.
  - right. reflexivity.
Defined.

Lemma get_speaker_by_voice_id_first_match_witness :
  VideoTranscription.get_speaker_by_voice_id Sample.two_janes 3 = Some Sample.jane3.
Proof.
  apply (get_speaker_by_voice_id_first_match Sample.two_janes 3
           [Sample.jane1; Sample.bob] Sample.jane3 []).
  - reflexivity.
  - reflexivity.
  - repeat constructor; discriminate.
Defined.

Lemma segments_by_speaker_resolve_to_that_speaker_witness :
  ∃ sp, VideoTranscription.get_speaker_by_voice_id Sample.two_janes
          (TranscriptSegment.voice_id Sample.seg2) = Some sp ∧
        Speaker.name sp = "Bob".
Proof.
  apply (segments_by_speaker_resolve_to_that_speaker Sample.two_janes "Bob" Sample.seg2).
  - compute_done.
  - vm_compute. apply elem_of_cons. by left.
Defined.

Lemma segment_missing_required_field_is_rejected_witness :
  TranscriptSegmentJson.model_validate (λ _, None) (JDict MoreSamples.segment_without_text)
  = None.
Proof.
  apply (segment_missing_required_field_is_rejected (λ _, None)
           MoreSamples.segment_without_text "text").
  - compute_done.
  - reflexivity.
Defined.

Lemma grey_marks_the_unnamed_speakers_witness :
  TranscriptionVisualizer.color_or_red
    (TranscriptionVisualizer.get_color_for_voice_mapping
       [Sample.jane1; MoreSamples.anonymous; Sample.bob]) 4
  ∈ TranscriptionVisualizer.unknown_speaker_colors.
Proof.
  apply (grey_marks_the_unnamed_speakers
           [Sample.jane1; MoreSamples.anonymous; Sample.bob] MoreSamples.anonymous).
  - compute_done.
  - apply elem_of_cons. right. apply elem_of_cons. by left.
Defined.

Lemma display_joins_to_the_last_speaker_witness :
  TranscriptionVisualizer.speaker_for_voice
    [Sample.jane1; Sample.bob; MoreSamples.janet1] !! 1
  = Some MoreSamples.janet1.
Proof.
  apply (display_joins_to_the_last_speaker
           [Sample.jane1; Sample.bob; MoreSamples.janet1] 1
           [Sample.jane1; Sample.bob] MoreSamples.janet1 []).
  - reflexivity.
  - reflexivity.
  - constructor.
Defined.

Lemma display_and_lookup_agree_on_distinct_ids_witness :
  TranscriptionVisualizer.speaker_for_voice (VideoTranscription.speakers Sample.two_janes)
    !! 2
  = VideoTranscription.get_speaker_by_voice_id Sample.two_janes 2.
Proof.
  apply (display_and_lookup_agree_on_distinct_ids Sample.two_janes 2).
  compute_done.
Defined.

Lemma ditto_marks_a_repeated_voice_witness :
  ∃ row,
    TranscriptionVisualizer.script_segments_rows MoreSamples.monologue !! 2%nat = Some row ∧
    row !! 2%nat = Some TranscriptionVisualizer.DITTO.
Proof.
  apply (ditto_marks_a_repeated_voice MoreSamples.monologue 1 Sample.seg4).
  reflexivity.
Defined.

Lemma speakers_rows_show_the_fields_as_stored_witness :
  ∃ color,
    TranscriptionVisualizer.speakers_rows Sample.two_janes !! 2%nat =
      Some [ "2"; "Bob"; "?"; "?"; "Guest"; color ] ∧
    color ≠ "red".
Proof.
  apply (speakers_rows_show_the_fields_as_stored Sample.two_janes 1 Sample.bob).
  reflexivity.
Defined.

Lemma speaker_counts_add_up_to_the_segments_witness :
  foldr Z.add 0 (speaker_counts MoreSamples.panel) = 3.
Proof.
  apply (speaker_counts_add_up_to_the_segments MoreSamples.panel).
  - compute_done.
  - compute_done.
  - repeat constructor; discriminate.
  - repeat constructor; compute_done.
Defined.
